(** * ecoQuest: the configuration web service, the display relay and the
      lap-time formatter

    A shallow embedding of four pieces of the ecoQuest telemetry suite:

    - [web-config/node-js/server.js]: the Express handlers
      [GET /api/get-config] and [POST /api/set-lines] and the MQTT
      [message] handler that fills [currentConfig];
    - [web-display/node-js/server.js]: the MQTT [message] handler that
      relays [gps/status] and [car/speed] to the browser, the connection
      handlers and the [initial_state] sent to a browser;
    - the dashboard script: [formatTimeJS], the state its socket handlers
      keep and the angle of the needle;
    - [web-config/node-js/public/script.js]: what the save button checks
      and posts.

    JavaScript values are an inductive type and an exception is [None] in
    the option monad.  The bindings a request's callbacks close over are a
    record; the callbacks are functions on it that return what they sent,
    and an execution is the list of callbacks that ran, in order.  The
    in-memory configuration store and the broker's retained messages are
    finite maps from topic names to payload strings.  [JSON.parse] and
    [JSON.stringify] are an interface of the runtime; [parseInt],
    [parseFloat] and the conversions to strings are written out.

    The first part holds the definitions, the second the facts; the
    theorems that settle a claim of the specification carry its number
    (C1 to C10), the further properties of the code a number X1 to X18. *)

From Stdlib Require Import ZArith QArith Qabs Qround Lia Lqa String Ascii List.
From Stdlib Require Import Decimal DecimalZ DecimalString.
From stdpp Require Import base option list gmap strings.

Import ListNotations.
Local Open Scope string_scope.
Local Open Scope list_scope.
Local Open Scope Z_scope.

(** ** JavaScript numbers

    A Number is NaN, an infinity or a finite value.  Finite values are
    exact rationals kept in lowest terms; the rounding of binary64 and the
    sign of zero are not represented.  So the quotient, product, sum and
    difference below are exact where binary64 rounds them, and the facts
    about a computed value are stated where binary64 leaves it exact
    (integers below 2^53, the floor of a quotient by 60 below 2^53, the
    remainder, which [%] computes exactly) or are facts of order, which
    rounding to nearest preserves. *)

Inductive number : Type :=
| NaN
| Infinity (negative : bool)
| Finite (q : Q).

Definition num_of_Z (z : Z) : number := Finite (inject_Z z).

Definition Qltb (a b : Q) : bool :=
  match Qcompare a b with Lt => true | _ => false end.

(** [x < y] *)
Definition num_lt (x y : number) : bool :=
  match x, y with
  | NaN, _ | _, NaN => false
  | Infinity true, Infinity true => false
  | Infinity true, _ => true
  | _, Infinity true => false
  | Infinity false, _ => false
  | Finite _, Infinity false => true
  | Finite a, Finite b => Qltb a b
  end.

(** [x === y] on numbers *)
Definition num_eqb (x y : number) : bool :=
  match x, y with
  | Infinity a, Infinity b => Bool.eqb a b
  | Finite a, Finite b => Qeq_bool a b
  | _, _ => false
  end.

Definition isNaN (x : number) : bool :=
  match x with NaN => true | _ => false end.

(** [Number.isInteger] *)
Definition Number_isInteger (x : number) : bool :=
  match x with
  | Finite q => Pos.eqb (Qden (Qred q)) 1
  | _ => false
  end.

(** [x / 60] and [x + 1] for the positive finite constants the code uses *)
Definition num_div_pos (x : number) (d : Q) : number :=
  match x with
  | Finite q => Finite (Qred (q / d))
  | other => other
  end.

Definition num_add_fin (x : number) (d : Q) : number :=
  match x with
  | Finite q => Finite (Qred (q + d))
  | other => other
  end.

(** truncation toward zero, as the [%] operator uses it *)
Definition Qtrunc (q : Q) : Z :=
  if Qltb q 0 then Qceiling q else Qfloor q.

(** [x % d] for a positive finite [d]: the result has the sign of [x] *)
Definition num_rem_pos (x : number) (d : Q) : number :=
  match x with
  | Finite q => Finite (Qred (q - inject_Z (Qtrunc (q / d)) * d))
  | _ => NaN
  end.

Definition Math_floor (x : number) : number :=
  match x with
  | Finite q => num_of_Z (Qfloor q)
  | other => other
  end.

(** [Math.round]: nearest integer, halves toward +Infinity *)
Definition Math_round (x : number) : number :=
  match x with
  | Finite q => num_of_Z (Qfloor (q + (1 # 2)))
  | other => other
  end.

(** ** Strings *)

Definition dquote : ascii := "034"%char.

Definition is_digit (c : ascii) : bool :=
  let n := nat_of_ascii c in (48 <=? n)%nat && (n <=? 57)%nat.

Definition digit_val (c : ascii) : Z := Z.of_nat (nat_of_ascii c - 48).

(** StrWhiteSpaceChar.  A string is the UTF-8 text of the payload, so a
    white-space character is one byte (TAB, LF, VT, FF, CR, SP), two
    (U+00A0) or three (U+1680, U+2000 to U+200A, U+2028, U+2029, U+202F,
    U+205F, U+3000, U+FEFF). *)
Definition is_space (c : ascii) : bool :=
  let n := nat_of_ascii c in
  ((9 <=? n)%nat && (n <=? 13)%nat) || (n =? 32)%nat.

Definition is_space2 (a b : ascii) : bool :=
  (nat_of_ascii a =? 194)%nat && (nat_of_ascii b =? 160)%nat.

Definition is_space3 (a b c : ascii) : bool :=
  let '(x, y, z) := (nat_of_ascii a, nat_of_ascii b, nat_of_ascii c) in
  ((x =? 225) && (y =? 154) && (z =? 128))%nat
  || ((x =? 226) && (y =? 128)
      && (((128 <=? z) && (z <=? 138)) || (z =? 168) || (z =? 169) || (z =? 175)))%nat
  || ((x =? 226) && (y =? 129) && (z =? 159))%nat
  || ((x =? 227) && (y =? 128) && (z =? 128))%nat
  || ((x =? 239) && (y =? 187) && (z =? 191))%nat.

Fixpoint trim_start (s : string) : string :=
  match s with
  | String a r1 =>
      if is_space a then trim_start r1
      else
        match r1 with
        | String b r2 =>
            if is_space2 a b then trim_start r2
            else
              match r2 with
              | String c r3 => if is_space3 a b c then trim_start r3 else s
              | EmptyString => s
              end
        | EmptyString => s
        end
  | EmptyString => EmptyString
  end.

(** longest prefix of decimal digits, and the rest *)
Fixpoint span_digits (s : string) : list ascii * string :=
  match s with
  | String c r =>
      if is_digit c then let '(ds, rest) := span_digits r in (c :: ds, rest)
      else ([], s)
  | EmptyString => ([], EmptyString)
  end.

Definition digits_val (ds : list ascii) : Z :=
  fold_left (fun acc c => 10 * acc + digit_val c) ds 0.

Definition take_sign (s : string) : bool * string :=
  match s with
  | String "-" r => (true, r)
  | String "+" r => (false, r)
  | _ => (false, s)
  end.

Definition signed (neg : bool) (z : Z) : Z := if neg then - z else z.

(** Where a decimal literal leaves the finite Numbers: a magnitude of
    2^1024 - 2^970 or more is an infinity, one of 2^-1075 or less is zero.
    Between the two the value is kept as written, not rounded to the
    nearest binary64. *)
Definition overflow_at : Z := 2 ^ 1024 - 2 ^ 970.

Definition underflow_at : Q := 1 # (2 ^ 1075).

Definition Number_of (neg : bool) (v : Q) : number :=
  if Qle_bool (inject_Z overflow_at) (Qabs v) then Infinity neg
  else if Qle_bool (Qabs v) underflow_at then Finite 0
  else Finite (Qred v).

(** [parseInt(s, 10)]: leading white space, an optional sign, then the
    longest run of decimal digits; NaN when there is none, an infinity
    when the digits denote too large an integer. *)
Definition parseInt10 (s : string) : number :=
  let '(neg, s1) := take_sign (trim_start s) in
  match span_digits s1 with
  | ([], _) => NaN
  | (ds, _) =>
      let z := signed neg (digits_val ds) in
      if Z.leb overflow_at (Z.abs z) then Infinity neg else num_of_Z z
  end.

Fixpoint starts_with (p s : string) : bool :=
  match p, s with
  | EmptyString, _ => true
  | String a p', String b s' => Ascii.eqb a b && starts_with p' s'
  | _, _ => false
  end.

(** the ExponentPart of a StrDecimalLiteral, 0 when it is absent or cut short *)
Definition exponent_part (s : string) : Z :=
  match s with
  | String c r =>
      if Ascii.eqb c "e" || Ascii.eqb c "E" then
        let '(neg, r1) := take_sign r in
        match span_digits r1 with
        | ([], _) => 0
        | (ds, _) => signed neg (digits_val ds)
        end
      else 0
  | EmptyString => 0
  end.

(** [parseFloat(s)]: leading white space, then the longest prefix that is
    a StrDecimalLiteral; NaN when there is none, an infinity or zero when
    the literal is out of range. *)
Definition parseFloat_str (s : string) : number :=
  let '(neg, s1) := take_sign (trim_start s) in
  if starts_with "Infinity" s1 then Infinity neg
  else
    let '(ip, r1) := span_digits s1 in
    let '(fp, r2) :=
      match r1 with
      | String "." r => span_digits r
      | _ => ([], r1)
      end in
    match ip ++ fp with
    | [] => NaN
    | ds =>
        let e := exponent_part r2 - Z.of_nat (length fp) in
        Number_of neg (inject_Z (signed neg (digits_val ds)) * Qpower (10 # 1) e)
    end.

(** decimal digits of an integer, with a leading minus sign when negative *)
Definition Z_to_string (z : Z) : string :=
  NilZero.string_of_int (Z.to_int z).

(** [s.padStart(2, '0')] *)
Definition padStart2 (s : string) : string :=
  match String.length s with
  | O => "00" +:+ s
  | S O => "0" +:+ s
  | _ => s
  end.

(** ** JavaScript values

    The values that reach the handlers: what [JSON.parse] builds, plus
    [undefined] and a symbol (the one primitive whose conversion to a
    string throws).  An object is its list of own properties in insertion
    order; keys are unique. *)

#[local] Set Warnings "-register-all".

Inductive value : Type :=
| VUndefined
| VNull
| VBool (b : bool)
| VNum (n : number)
| VStr (s : string)
| VSymbol
| VArr (items : list value)
| VObj (fields : list (string * value)).

Definition typeof (v : value) : string :=
  match v with
  | VUndefined => "undefined"
  | VNull | VArr _ | VObj _ => "object"
  | VBool _ => "boolean"
  | VNum _ => "number"
  | VStr _ => "string"
  | VSymbol => "symbol"
  end.

(** ToBoolean *)
Definition truthy (v : value) : bool :=
  match v with
  | VUndefined | VNull => false
  | VBool b => b
  | VNum NaN => false
  | VNum (Finite q) => negb (Qeq_bool q 0)
  | VNum (Infinity _) => true
  | VStr s => negb (String.eqb s "")
  | VSymbol | VArr _ | VObj _ => true
  end.

Definition Array_isArray (v : value) : bool :=
  match v with VArr _ => true | _ => false end.

Fixpoint own_prop {A : Type} (k : string) (fs : list (string * A)) : option A :=
  match fs with
  | [] => None
  | (k', v) :: rest => if String.eqb k k' then Some v else own_prop k rest
  end.

Definition has_key {A : Type} (k : string) (fs : list (string * A)) : bool :=
  match own_prop k fs with Some _ => true | None => false end.

(** [o[k] = v] on a property list: overwrite in place, or append *)
Fixpoint assign {A : Type} (k : string) (v : A) (fs : list (string * A))
  : list (string * A) :=
  match fs with
  | [] => [(k, v)]
  | (k', v') :: rest =>
      if String.eqb k k' then (k, v) :: rest else (k', v') :: assign k v rest
  end.

(** [{...a, ...b}] on property lists *)
Definition spread {A : Type} (a b : list (string * A)) : list (string * A) :=
  fold_left (fun acc kv => assign (fst kv) (snd kv) acc) b a.

(** [v.k] for a key that is neither an index nor [length]; [None] is the
    TypeError of reading a property of [undefined] or [null]. *)
Definition prop (v : value) (k : string) : option value :=
  match v with
  | VUndefined | VNull => None
  | VObj fs => Some (default VUndefined (own_prop k fs))
  | _ => Some VUndefined
  end.

Definition char_at (s : string) (i : nat) : value :=
  match String.get i s with
  | Some c => VStr (String c EmptyString)
  | None => VUndefined
  end.

(** [v[i]]; [None] is the TypeError on [undefined] and [null]. *)
Definition index (v : value) (i : nat) : option value :=
  match v with
  | VUndefined | VNull => None
  | VArr l => Some (nth i l VUndefined)
  | VStr s => Some (char_at s i)
  | VObj fs => Some (default VUndefined (own_prop (Z_to_string (Z.of_nat i)) fs))
  | _ => Some VUndefined
  end.

(** [a[i]] and [a.length] where [a] is already known to be an array *)
Definition elem (a : value) (i : nat) : value :=
  match a with VArr l => nth i l VUndefined | _ => VUndefined end.

Definition array_length (a : value) : nat :=
  match a with VArr l => length l | _ => 0%nat end.

(** [k in v]; [None] is the TypeError on a primitive right operand.  The
    keys asked for are never indices, [length] or prototype members. *)
Definition key_in (k : string) (v : value) : option bool :=
  match v with
  | VObj fs => Some (has_key k fs)
  | VArr _ => Some false
  | _ => None
  end.

(** ** The runtime's text conversions

    [JSON.parse], [JSON.stringify] and the digits [Number::toString]
    prints for a number that is not an integer below 10^21 are the
    runtime's; the handlers are written against this interface.
    [JSON_parse] returns [None] where [JSON.parse] throws. *)

Class Runtime : Type := {
  JSON_parse : string -> option value;
  JSON_stringify : value -> string;
  Number_repr : Q -> string
}.

Section Conversions.
Context `{RT : Runtime}.

(** [String(x)] on a number.  An integer below 10^21 is printed with all
    its digits, as [String] prints every integer up to 2^53; above, the
    digits [String] prints are the shortest that read back as the same
    Number, followed by zeros. *)
Definition Number_toString (x : number) : string :=
  match x with
  | NaN => "NaN"
  | Infinity false => "Infinity"
  | Infinity true => "-Infinity"
  | Finite q =>
      let r := Qred q in
      if Pos.eqb (Qden r) 1 && (Z.abs (Qnum r) <? 10 ^ 21)
      then Z_to_string (Qnum r)
      else Number_repr q
  end.

(** ToString; [None] is the TypeError on a symbol. *)
Fixpoint ToString (v : value) : option string :=
  match v with
  | VUndefined => Some "undefined"
  | VNull => Some "null"
  | VBool true => Some "true"
  | VBool false => Some "false"
  | VNum x => Some (Number_toString x)
  | VStr s => Some s
  | VSymbol => None
  | VArr l =>
      let item (x : value) : option string :=
        match x with
        | VUndefined | VNull => Some ""
        | _ => ToString x
        end in
      (fix join (l : list value) : option string :=
         match l with
         | [] => Some ""
         | [x] => item x
         | x :: rest =>
             a ← item x; b ← join rest; Some (a +:+ "," +:+ b)
         end) l
  | VObj _ => Some "[object Object]"
  end.

(** [parseFloat(v)] *)
Definition parseFloat (v : value) : option number :=
  s ← ToString v; Some (parseFloat_str s).

(** *** The dashboard's clock format *)

(** the body of the [try] block of [formatTimeJS]; the quotient by 60 is
    exact here, and rounded in the browser, which leaves its floor as it
    is below 2^53 seconds *)
Definition formatTimeJS_try (seconds : value) : option string :=
  seconds ← parseFloat seconds;
  if isNaN seconds || num_lt seconds (num_of_Z 0) then Some "00:00"
  else
    let minutes := Math_floor (num_div_pos seconds 60) in
    let remainingSeconds := Math_round (num_rem_pos seconds 60) in
    let '(minutes, remainingSeconds) :=
      if num_eqb remainingSeconds (num_of_Z 60)
      then (num_add_fin minutes 1, num_of_Z 0)
      else (minutes, remainingSeconds) in
    Some (padStart2 (Number_toString minutes) +:+ ":"
          +:+ padStart2 (Number_toString remainingSeconds)).

Definition formatTimeJS (seconds : value) : string :=
  match seconds with
  | VNull | VUndefined => "00:00"
  | _ =>
      match formatTimeJS_try seconds with
      | Some text => text
      | None => "00:00"
      end
  end.

End Conversions.

(** ** web-display/node-js/server.js: the relay's message handler *)

Definition MQTT_TOPIC_GPS : string := "gps/status".
Definition MQTT_TOPIC_SPEED : string := "car/speed".

Definition requiredKeys : list string :=
  ["current_lap"; "total_laps"; "last_lap_time_seconds"; "race_finished";
   "current_lap_elapsed_seconds"].

(** the module-level [let] bindings the handler reads and replaces *)
Record relay : Type := {
  raceData : list (string * value);
  speedData : list (string * value);
  mqttConnected : bool
}.

Definition initial_relay : relay :=
  {| raceData :=
       [("current_lap", VNum (num_of_Z 0)); ("total_laps", VNum (num_of_Z 0));
        ("last_lap_time_seconds", VNull); ("race_finished", VBool false);
        ("current_lap_elapsed_seconds", VNull)];
     speedData := [("speed_kmh", VNum (num_of_Z 0))];
     mqttConnected := false |}.

(** [io.emit(name, data)] *)
Record emission : Type := { emit_name : string; emit_data : value }.

(** [try { body } catch (e) { handler }] *)
Definition try_catch {A : Type} (body handler : option A) : option A :=
  match body with
  | Some a => Some a
  | None => handler
  end.

(** [keys.every(key => key in payload)]: stops at the first absent key,
    throws where [in] does *)
Fixpoint every_key_in (keys : list string) (payload : value) : option bool :=
  match keys with
  | [] => Some true
  | k :: rest =>
      match key_in k payload with
      | Some true => every_key_in rest payload
      | Some false => Some false
      | None => None
      end
  end.

Definition own_properties (v : value) : list (string * value) :=
  match v with VObj fs => fs | _ => [] end.

Section Relay.
Context `{RT : Runtime}.

(** the body of the [try] block of [client.on('message')] *)
Definition relay_message_try (topic message : string) (st : relay)
  : option (relay * list emission) :=
  payload ← JSON_parse message;
  if String.eqb topic MQTT_TOPIC_GPS then
    match every_key_in requiredKeys payload with
    | Some true =>
        let rd := spread (raceData st) (own_properties payload) in
        Some ({| raceData := rd; speedData := speedData st;
                 mqttConnected := mqttConnected st |},
              [{| emit_name := "race_update"; emit_data := VObj rd |}])
    | Some false => Some (st, [])
    | None => None
    end
  else if String.eqb topic MQTT_TOPIC_SPEED then
    match key_in "speed_kmh" payload with
    | Some true =>
        speed ← prop payload "speed_kmh";
        let sd := spread (speedData st) [("speed_kmh", speed)] in
        Some ({| raceData := raceData st; speedData := sd;
                 mqttConnected := mqttConnected st |},
              [{| emit_name := "speed_update"; emit_data := VObj sd |}])
    | Some false => Some (st, [])
    | None => None
    end
  else Some (st, []).

(** [client.on('message', (topic, message) => ...)]; [None] would be an
    exception leaving the callback. *)
Definition relay_on_message (topic message : string) (st : relay)
  : option (relay * list emission) :=
  try_catch (relay_message_try topic message st) (Some (st, [])).

End Relay.

(** ** web-config/node-js/server.js *)

Definition MQTT_TOPIC_CONFIG_START : string := "config/start_line".
Definition MQTT_TOPIC_CONFIG_FINISH : string := "config/finish_line".
Definition MQTT_TOPIC_CONFIG_LAP : string := "config/lap_line".
Definition MQTT_TOPIC_CONFIG_TOTAL_LAPS : string := "config/total_laps".
Definition MQTT_TOPIC_IDEAL_TIME : string := "config/ideal_time".

Definition configTopics : list string :=
  [MQTT_TOPIC_CONFIG_START; MQTT_TOPIC_CONFIG_FINISH; MQTT_TOPIC_CONFIG_LAP;
   MQTT_TOPIC_CONFIG_TOTAL_LAPS; MQTT_TOPIC_IDEAL_TIME].

(** [currentConfig]: the latest payload string per topic; an absent key is
    the initial [null]. *)
Definition initial_config : gmap string string := ∅.

(** [mqttClient.on('message', (topic, message) => ...)] *)
Definition on_message (topic payload : string) (cfg : gmap string string)
  : gmap string string :=
  if bool_decide (topic ∈ configTopics) then <[topic := payload]> cfg else cfg.

(** [res.status(code).send(body)] *)
Record response : Type := { status : Z; body : value }.

Definition message_only (code : Z) (text : string) : response :=
  {| status := code; body := VObj [("message", VStr text)] |}.

Definition with_details (code : Z) (text : string) (details : list string)
  : response :=
  {| status := code;
     body := VObj [("message", VStr text); ("details", VArr (map VStr details))] |}.

(** the truthiness test [if (currentConfig[topic])] *)
Definition stored (cfg : gmap string string) (topic : string) : option string :=
  match cfg !! topic with
  | Some s => if truthy (VStr s) then Some s else None
  | None => None
  end.

Section GetConfig.
Context `{RT : Runtime}.

(** one of the three blocks inside the [try] of [/api/get-config] *)
Definition read_line (cfg : gmap string string) (topic : string) : option value :=
  match stored cfg topic with
  | Some text =>
      data ← JSON_parse text;
      p1 ← prop data "p1"; a ← index p1 1;
      p1 ← prop data "p1"; b ← index p1 0;
      p2 ← prop data "p2"; c ← index p2 1;
      p2 ← prop data "p2"; d ← index p2 0;
      Some (VArr [VArr [a; b]; VArr [c; d]])
  | None => Some VNull
  end.

Definition read_lines (cfg : gmap string string) : option (value * value * value) :=
  start ← read_line cfg MQTT_TOPIC_CONFIG_START;
  finish ← read_line cfg MQTT_TOPIC_CONFIG_FINISH;
  lap ← read_line cfg MQTT_TOPIC_CONFIG_LAP;
  Some (start, finish, lap).

Definition read_totalLaps (cfg : gmap string string) : number :=
  match stored cfg MQTT_TOPIC_CONFIG_TOTAL_LAPS with
  | Some text =>
      let n := parseInt10 text in
      if isNaN n then num_of_Z 0 else n
  | None => num_of_Z 0
  end.

Definition read_idealTime (cfg : gmap string string) : number :=
  match stored cfg MQTT_TOPIC_IDEAL_TIME with
  | Some text =>
      let x := parseFloat_str text in
      if isNaN x then num_of_Z 60 else x
  | None => num_of_Z 60
  end.

(** [app.get('/api/get-config', ...)] *)
Definition get_config (cfg : gmap string string) : response :=
  match read_lines cfg with
  | None =>
      message_only 500 "Error parsing stored line configuration from MQTT."
  | Some (start, finish, lap) =>
      {| status := 200;
         body := VObj [("start", start); ("finish", finish); ("lap", lap);
                       ("totalLaps", VNum (read_totalLaps cfg));
                       ("idealTime", VNum (read_idealTime cfg))] |}
  end.

End GetConfig.

(** *** POST /api/set-lines *)

(** the five publish tasks, [linesToPublish] then [configToPublish] *)
Inductive task : Type := TStart | TFinish | TLap | TTotalLaps | TIdealTime.

#[global] Instance task_eq_dec : EqDecision task := ltac:(solve_decision).

Definition all_tasks : list task := [TStart; TFinish; TLap; TTotalLaps; TIdealTime].

Definition task_topic (t : task) : string :=
  match t with
  | TStart => MQTT_TOPIC_CONFIG_START
  | TFinish => MQTT_TOPIC_CONFIG_FINISH
  | TLap => MQTT_TOPIC_CONFIG_LAP
  | TTotalLaps => MQTT_TOPIC_CONFIG_TOTAL_LAPS
  | TIdealTime => MQTT_TOPIC_IDEAL_TIME
  end.

Definition task_name (t : task) : string :=
  match t with
  | TStart => "Start"
  | TFinish => "Finish"
  | TLap => "Lap"
  | TTotalLaps => "Total Laps"
  | TIdealTime => "Ideal Time"
  end.

(** what the task's publish callback pushes on [errors] *)
Definition failure_text (t : task) : string :=
  match t with
  | TStart | TFinish | TLap => "Failed " +:+ task_name t +:+ " line."
  | TTotalLaps | TIdealTime => "Failed " +:+ task_name t +:+ " config."
  end.

(** [const { start, finish, lap, totalLaps, idealTime } = req.body]:
    [req.body] is the object [express.json()] parsed, given by its
    properties. *)
Definition field (body : list (string * value)) (k : string) : value :=
  default VUndefined (own_prop k body).

Definition isValidPoint (p : value) : bool :=
  Array_isArray p && Nat.eqb (array_length p) 2
  && String.eqb (typeof (elem p 0)) "number"
  && String.eqb (typeof (elem p 1)) "number".

Definition is_undefined (v : value) : bool :=
  match v with VUndefined => true | _ => false end.

Definition is_null (v : value) : bool :=
  match v with VNull => true | _ => false end.

(** [v < 0] and [Number.isInteger(v)], read only where [typeof v] is
    ['number'] *)
Definition lt_zero (v : value) : bool :=
  match v with VNum n => num_lt n (num_of_Z 0) | _ => false end.

Definition isInteger (v : value) : bool :=
  match v with VNum n => Number_isInteger n | _ => false end.

Definition not_two_points (line : value) : bool :=
  negb (Array_isArray line) || negb (Nat.eqb (array_length line) 2).

(** the validation block: [Some r] is the early [return res.status(400)...] *)
Definition validate (body : list (string * value)) : option response :=
  let start := field body "start" in
  let finish := field body "finish" in
  let lap := field body "lap" in
  let totalLaps := field body "totalLaps" in
  let idealTime := field body "idealTime" in
  if negb (truthy start) || negb (truthy finish) || negb (truthy lap) then
    Some (message_only 400 "Missing line data (start, finish, or lap).")
  else if not_two_points start || not_two_points finish || not_two_points lap then
    Some (message_only 400
      "Incorrect line format. Each line must be an array of two [lat, lon] points.")
  else if negb (isValidPoint (elem start 0)) || negb (isValidPoint (elem start 1))
          || negb (isValidPoint (elem finish 0)) || negb (isValidPoint (elem finish 1))
          || negb (isValidPoint (elem lap 0)) || negb (isValidPoint (elem lap 1)) then
    Some (message_only 400
      "Incorrect point format within a line. Points must be [lat, lon] arrays.")
  else if is_undefined totalLaps || is_null totalLaps
          || negb (String.eqb (typeof totalLaps) "number")
          || lt_zero totalLaps || negb (isInteger totalLaps) then
    Some (message_only 400 "Invalid total laps value. Must be a whole number >= 0.")
  else if is_undefined idealTime || is_null idealTime
          || negb (String.eqb (typeof idealTime) "number")
          || lt_zero idealTime then
    Some (message_only 400 "Invalid ideal time value. Must be a number >= 0.")
  else None.

(** the per-request bindings [errors], [successes], [responseSent] that
    the callbacks close over *)
Record closure : Type := {
  errors : list string;
  successes : nat;
  responseSent : bool
}.

Definition fresh_closure : closure :=
  {| errors := []; successes := 0; responseSent := false |}.

(** [linesToPublish.length + configToPublish.length] *)
Definition totalTasks : nat := (3 + 2)%nat.

Definition success_response : response :=
  message_only 200 "All lines and config published successfully!".

Definition failure_response (errs : list string) : response :=
  with_details 500 "Error publishing some configuration parts." errs.

Definition timeout_response (errs : list string) : response :=
  with_details 508
    "Timeout waiting for all MQTT publish confirmations. Some settings might not have saved."
    errs.

Definition not_connected_response : response :=
  message_only 500 "MQTT client not connected. Cannot save configuration.".

(** [checkCompletion()]: the closure after the call and what it sent *)
Definition checkCompletion (c : closure) : closure * list response :=
  if responseSent c then (c, [])
  else if Nat.eqb (successes c + length (errors c)) totalTasks then
    let c' := {| errors := errors c; successes := successes c;
                 responseSent := true |} in
    if Nat.ltb 0 (length (errors c))
    then (c', [failure_response (errors c)])
    else (c', [success_response])
  else (c, []).

(** the callback given to [mqttClient.publish] for task [t] *)
Definition publish_callback (t : task) (err : bool) (c : closure)
  : closure * list response :=
  checkCompletion
    (if err
     then {| errors := errors c ++ [failure_text t]; successes := successes c;
             responseSent := responseSent c |}
     else {| errors := errors c; successes := S (successes c);
             responseSent := responseSent c |}).

(** the [setTimeout] callback *)
Definition timeout_callback (c : closure) : closure * list response :=
  if responseSent c then (c, [])
  else ({| errors := errors c; successes := successes c; responseSent := true |},
        [timeout_response (errors c)]).

(** what can happen to a request once its publishes are under way *)
Inductive event : Type :=
| PublishDone (t : task) (err : bool)
| TimerFired.

Definition react (e : event) (c : closure) : closure * list response :=
  match e with
  | PublishDone t err => publish_callback t err c
  | TimerFired => timeout_callback c
  end.

(** the callbacks run one after another, collecting every response sent *)
Fixpoint react_all (evs : list event) (c : closure) : closure * list response :=
  match evs with
  | [] => (c, [])
  | e :: rest =>
      let '(c1, out1) := react e c in
      let '(c2, out2) := react_all rest c1 in
      (c2, out1 ++ out2)
  end.

(** one [mqttClient.publish(topic, payload, { qos: 2, retain: true }, cb)] *)
Record publish_call : Type := {
  call_task : task;
  call_topic : string;
  call_payload : string
}.

Section SetLines.
Context `{RT : Runtime}.

(** [JSON.stringify({ p1: [line[0][1], line[0][0]], p2: [line[1][1], line[1][0]] })] *)
Definition line_object (line : value) : value :=
  VObj [("p1", VArr [elem (elem line 0) 1; elem (elem line 0) 0]);
        ("p2", VArr [elem (elem line 1) 1; elem (elem line 1) 0])].

Definition line_payload (line : value) : string :=
  JSON_stringify (line_object line).

(** [String(value)] *)
Definition String_of (v : value) : string :=
  match v with
  | VSymbol => "Symbol()"
  | _ => default "" (ToString v)
  end.

Definition line_call (t : task) (line : value) : publish_call :=
  {| call_task := t; call_topic := task_topic t; call_payload := line_payload line |}.

Definition config_call (t : task) (v : value) : publish_call :=
  {| call_task := t; call_topic := task_topic t; call_payload := String_of v |}.

(** the publishes the two [forEach] loops issue, in order *)
Definition publish_calls (body : list (string * value)) : list publish_call :=
  [line_call TStart (field body "start");
   line_call TFinish (field body "finish");
   line_call TLap (field body "lap");
   config_call TTotalLaps (field body "totalLaps");
   config_call TIdealTime (field body "idealTime")].

(** the synchronous part of [app.post('/api/set-lines', ...)]: either an
    early response, or the five publishes with a fresh closure and the
    armed timer *)
Definition set_lines (connected : bool) (body : list (string * value))
  : response + (closure * list publish_call) :=
  match validate body with
  | Some r => inl r
  | None =>
      if negb connected then inl not_connected_response
      else inr (fresh_closure, publish_calls body)
  end.

(** *** The broker and the server's store

    The broker keeps the last retained payload per topic.  A publish it
    acknowledges has replaced the topic's retained payload and, the server
    being subscribed to every configuration topic, has been delivered
    back to [on_message].  A publish whose callback reports an error is
    taken as not applied. *)
Record world : Type := {
  retained : gmap string string;
  currentConfig : gmap string string
}.

Definition deliver (call : publish_call) (w : world) : world :=
  {| retained := <[call_topic call := call_payload call]> (retained w);
     currentConfig := on_message (call_topic call) (call_payload call) (currentConfig w) |}.

Definition call_of (calls : list publish_call) (t : task) : option publish_call :=
  find (fun call => bool_decide (call_task call = t)) calls.

Definition settle (calls : list publish_call) (e : event) (w : world) : world :=
  match e with
  | PublishDone t false =>
      match call_of calls t with
      | Some call => deliver call w
      | None => w
      end
  | _ => w
  end.

Definition settle_all (calls : list publish_call) (evs : list event) (w : world)
  : world :=
  fold_left (fun w e => settle calls e w) evs w.

(** a whole request: the handler, then the events of its publishes and
    timer; the result is the world afterwards, every response sent and
    every publish issued *)
Definition post_set_lines (connected : bool) (w : world)
    (body : list (string * value)) (evs : list event)
  : world * list response * list publish_call :=
  match set_lines connected body with
  | inl r => (w, [r], [])
  | inr (c, calls) => (settle_all calls evs w, snd (react_all evs c), calls)
  end.

End SetLines.

(** *** Several requests in flight

    Each accepted request has its own closure; the callbacks of a request
    reach its closure only.  The server is the closures by request number
    and the responses written so far, each tagged with its request. *)

Record server : Type := {
  inflight : gmap nat closure;
  answered : list (nat * response)
}.

(** an event of request [rid] runs the matching callback of that request *)
Definition serve (rid : nat) (e : event) (sv : server) : server :=
  match inflight sv !! rid with
  | Some c =>
      let '(c', out) := react e c in
      {| inflight := <[rid := c']> (inflight sv);
         answered := answered sv ++ map (pair rid) out |}
  | None => sv
  end.

Definition serve_all (evs : list (nat * event)) (sv : server) : server :=
  fold_left (fun sv re => serve (fst re) (snd re) sv) evs sv.

(** the events and the responses of one request *)
Definition events_of (rid : nat) (evs : list (nat * event)) : list event :=
  map snd (List.filter (fun re => Nat.eqb (fst re) rid) evs).

Definition answers_to (rid : nat) (sv : server) : list response :=
  map snd (List.filter (fun a => Nat.eqb (fst a) rid) (answered sv)).

(** ** The rest of the three programs

    The handlers and helpers next to the ones above: the store under a
    stream of messages, the relay's connection handlers and what it sends
    a browser, the dashboard script's state and needle, and the save
    button of the map editor. *)

(** *** web-config/node-js/server.js: a stream of inbound messages *)

(** the [message] handler run on each (topic, payload) in turn *)
Definition receive_all (msgs : list (string * string)) (cfg : gmap string string)
  : gmap string string :=
  fold_left (fun cfg m => on_message (fst m) (snd m) cfg) msgs cfg.

(** the payload of the last message on topic [k] *)
Definition last_payload (k : string) (msgs : list (string * string)) : option string :=
  own_prop k (rev msgs).

(** *** web-display/node-js/server.js: the connection handlers *)

(** [io.emit('mqtt_status', { connected: b })] *)
Definition mqtt_status (b : bool) : emission :=
  {| emit_name := "mqtt_status"; emit_data := VObj [("connected", VBool b)] |}.

(** [mqttConnected = b; io.emit('mqtt_status', ...)], the state part of
    the [connect], [reconnect], [close], [offline] and [error] handlers *)
Definition relay_set_connected (b : bool) (st : relay) : relay * list emission :=
  ({| raceData := raceData st; speedData := speedData st; mqttConnected := b |},
   [mqtt_status b]).

(** what the MQTT client raises on the relay *)
Inductive relay_event : Type :=
| MqttConnect
| MqttReconnect
| MqttClose
| MqttOffline
| MqttError
| MqttMessage (topic message : string).


Section RelayRun.
Context `{RT : Runtime}.

(** one event; [None] would be an exception leaving its handler *)
Definition relay_step (e : relay_event) (st : relay) : option (relay * list emission) :=
  match e with
  | MqttConnect => Some (relay_set_connected true st)
  | MqttReconnect | MqttClose | MqttOffline | MqttError =>
      Some (relay_set_connected false st)
  | MqttMessage topic message => relay_on_message topic message st
  end.

(** the events in order, with everything emitted *)
Fixpoint relay_run (evs : list relay_event) (st : relay)
  : option (relay * list emission) :=
  match evs with
  | [] => Some (st, [])
  | e :: rest =>
      match relay_step e st with
      | Some (st1, out1) =>
          match relay_run rest st1 with
          | Some (st2, out2) => Some (st2, out1 ++ out2)
          | None => None
          end
      | None => None
      end
  end.

End RelayRun.

(** *** The dashboard script: what the browser keeps *)

(** [currentSpeedKmh], [currentRaceData], [isMqttConnected] *)
Record dashboard : Type := {
  currentSpeedKmh : value;
  currentRaceData : value;
  isMqttConnected : value
}.

Definition initial_dashboard : dashboard :=
  {| currentSpeedKmh := VNum (num_of_Z 0); currentRaceData := VObj [];
     isMqttConnected := VBool false |}.

Definition nullish (v : value) : bool :=
  match v with VUndefined | VNull => true | _ => false end.






(** *** The dashboard script: the needle *)

Definition startAngleDeg : Q := 180.
Definition endAngleDeg : Q := 90.
Definition maxSpeed : Q := 50.

(** [Math.min(x, y)] *)
Definition Math_min (x y : number) : number :=
  match x, y with
  | NaN, _ | _, NaN => NaN
  | Infinity true, _ | _, Infinity true => Infinity true
  | Infinity false, other | other, Infinity false => other
  | Finite a, Finite b => if Qltb b a then y else x
  end.

(** [c * x] for a positive finite [c], and [c - x] for a finite [c] *)
Definition num_mul_pos (c : Q) (x : number) : number :=
  match x with
  | Finite q => Finite (Qred (c * q))
  | other => other
  end.

Definition num_sub_from (c : Q) (x : number) : number :=
  match x with
  | NaN => NaN
  | Infinity s => Infinity (negb s)
  | Finite q => Finite (Qred (c - q))
  end.

(** the angle [drawNeedleJS(speed)] draws the needle at; [None] is the
    early return on [maxSpeed <= 0].  The quotient, the product and the
    difference are exact here and rounded to binary64 in the browser, so
    the angle can differ in its last digits. *)
Definition needleAngle (speed : number) : option number :=
  if Qle_bool maxSpeed 0 then None
  else
    let speedForGauge := Math_min speed (Finite maxSpeed) in
    Some (num_sub_from startAngleDeg
            (num_mul_pos (startAngleDeg - endAngleDeg)
               (num_div_pos speedForGauge maxSpeed))).

(** *** The map editor: the save button (public/script.js) *)







Section SaveClick.
Context `{RT : Runtime}.


End SaveClick.

(** ** A runtime to execute the handlers with

    JSON text restricted to strings without escapes and to numbers in
    plain decimal notation: enough to run the handlers on concrete
    traffic. *)

Module PlainText.

(** JSON white space: TAB, LF, CR, SP *)
Fixpoint skip_ws (s : string) : string :=
  match s with
  | String c r =>
      let n := nat_of_ascii c in
      if (n =? 9)%nat || (n =? 10)%nat || (n =? 13)%nat || (n =? 32)%nat
      then skip_ws r else s
  | EmptyString => EmptyString
  end.

Definition quoted (s : string) : string :=
  String dquote (s +:+ String dquote EmptyString).

Fixpoint join_with (sep : string) (l : list string) : string :=
  match l with
  | [] => ""
  | [x] => x
  | x :: rest => x +:+ sep +:+ join_with sep rest
  end.

(** the least [k] for which [a * 10^k / b] is an integer, with that integer *)
Fixpoint find_scale (fuel : nat) (a b : Z) (k : nat) : option (Z * nat) :=
  match fuel with
  | O => None
  | S fuel' =>
      if Z.eqb (a mod b) 0 then Some (a / b, k)
      else find_scale fuel' (10 * a) b (S k)
  end.

Fixpoint zeros (n : nat) : string :=
  match n with O => "" | S n' => String "0" (zeros n') end.

(** plain decimal notation of a rational with a finite expansion *)
Definition decimal_text (q : Q) : string :=
  let r := Qred q in
  match find_scale 40 (Z.abs (Qnum r)) (Zpos (Qden r)) 0 with
  | None => "null"
  | Some (m, k) =>
      let ds := Z_to_string m in
      let ds := zeros (S k - String.length ds) +:+ ds in
      let n := (String.length ds - k)%nat in
      (if Z.ltb (Qnum r) 0 then "-" else "")
      +:+ String.substring 0 n ds
      +:+ (if Nat.eqb k 0 then "" else "." +:+ String.substring n k ds)
  end.

Fixpoint print (v : value) : string :=
  match v with
  | VUndefined | VNull | VSymbol => "null"
  | VBool true => "true"
  | VBool false => "false"
  | VNum (Finite q) => decimal_text q
  | VNum _ => "null"
  | VStr s => quoted s
  | VArr l => "[" +:+ join_with "," (map print l) +:+ "]"
  | VObj fs =>
      "{" +:+ join_with "," (map (fun kv => quoted (fst kv) +:+ ":" +:+ print (snd kv)) fs)
      +:+ "}"
  end.

Definition lex_exponent (s : string) : Z * string :=
  match s with
  | String c r =>
      if Ascii.eqb c "e" || Ascii.eqb c "E" then
        let '(neg, r1) := take_sign r in
        match span_digits r1 with
        | ([], _) => (0, s)
        | (ds, r2) => (signed neg (digits_val ds), r2)
        end
      else (0, s)
  | EmptyString => (0, s)
  end.

Definition lex_number (s : string) : option (number * string) :=
  let '(neg, s1) :=
    match s with String "-" r => (true, r) | _ => (false, s) end in
  match span_digits s1 with
  | ([], _) => None
  | (ip, r1) =>
      let frac :=
        match r1 with
        | String "." r =>
            match span_digits r with
            | ([], _) => None
            | (fp, r2) => Some (fp, r2)
            end
        | _ => Some ([], r1)
        end in
      match frac with
      | None => None
      | Some (fp, r2) =>
          let '(e, r3) := lex_exponent r2 in
          Some (Finite (Qred (inject_Z (signed neg (digits_val (ip ++ fp)))
                              * Qpower (10 # 1) (e - Z.of_nat (length fp)))),
                r3)
      end
  end.

(** the characters up to the closing quote *)
Fixpoint lex_string (s : string) : option (string * string) :=
  match s with
  | EmptyString => None
  | String c r =>
      if Ascii.eqb c dquote then Some (EmptyString, r)
      else if Ascii.eqb c "\" then None
      else
        match lex_string r with
        | Some (t, r') => Some (String c t, r')
        | None => None
        end
  end.

Fixpoint parse_value (fuel : nat) (s : string) : option (value * string) :=
  match fuel with
  | O => None
  | S fuel' =>
      let s := skip_ws s in
      if starts_with "null" s then Some (VNull, String.substring 4 (String.length s) s)
      else if starts_with "true" s then Some (VBool true, String.substring 4 (String.length s) s)
      else if starts_with "false" s then Some (VBool false, String.substring 5 (String.length s) s)
      else
        match s with
        | String "[" r =>
            match skip_ws r with
            | String "]" r' => Some (VArr [], r')
            | _ =>
                match parse_items fuel' r with
                | Some (l, r') => Some (VArr l, r')
                | None => None
                end
            end
        | String "{" r =>
            match skip_ws r with
            | String "}" r' => Some (VObj [], r')
            | _ =>
                match parse_fields fuel' r with
                | Some (fs, r') => Some (VObj fs, r')
                | None => None
                end
            end
        | String c r =>
            if Ascii.eqb c dquote then
              match lex_string r with
              | Some (t, r') => Some (VStr t, r')
              | None => None
              end
            else
              match lex_number s with
              | Some (x, r') => Some (VNum x, r')
              | None => None
              end
        | EmptyString => None
        end
  end
with parse_items (fuel : nat) (s : string) : option (list value * string) :=
  match fuel with
  | O => None
  | S fuel' =>
      match parse_value fuel' s with
      | Some (v, r) =>
          match skip_ws r with
          | String "," r' =>
              match parse_items fuel' r' with
              | Some (l, r2) => Some (v :: l, r2)
              | None => None
              end
          | String "]" r' => Some ([v], r')
          | _ => None
          end
      | None => None
      end
  end
with parse_fields (fuel : nat) (s : string)
  : option (list (string * value) * string) :=
  match fuel with
  | O => None
  | S fuel' =>
      match skip_ws s with
      | String c r =>
          if Ascii.eqb c dquote then
            match lex_string r with
            | Some (k, r1) =>
                match skip_ws r1 with
                | String ":" r2 =>
                    match parse_value fuel' r2 with
                    | Some (v, r3) =>
                        match skip_ws r3 with
                        | String "," r4 =>
                            match parse_fields fuel' r4 with
                            | Some (fs, r5) => Some (spread [(k, v)] fs, r5)
                            | None => None
                            end
                        | String "}" r4 => Some ([(k, v)], r4)
                        | _ => None
                        end
                    | None => None
                    end
                | _ => None
                end
            | None => None
            end
          else None
      | EmptyString => None
      end
  end.

Definition parse (s : string) : option value :=
  match parse_value (2 * String.length s + 2) s with
  | Some (v, rest) =>
      match skip_ws rest with
      | EmptyString => Some v
      | _ => None
      end
  | None => None
  end.

#[global] Instance runtime : Runtime :=
  {| JSON_parse := parse; JSON_stringify := print; Number_repr := decimal_text |}.

End PlainText.

(** ** Vocabulary for the statements *)

(** *** Runs of a request *)

(** publish callbacks, given as (task, error reported) in the order they run *)
Definition ack_events (acks : list (task * bool)) : list event :=
  map (fun a => PublishDone (fst a) (snd a)) acks.

(** the tasks whose callback reported an error, in callback order *)
Definition failed_tasks (acks : list (task * bool)) : list task :=
  map fst (List.filter snd acks).

(** what those callbacks pushed on [errors] *)
Definition failures (acks : list (task * bool)) : list string :=
  map failure_text (failed_tasks acks).

(** error-free callbacks for the tasks [ts], in that order *)
Definition acknowledged (ts : list task) : list (task * bool) :=
  map (fun t => (t, false)) ts.

(** the callback outcome of the partial-failure scenario: only the lap
    line fails *)
Definition lap_fails (t : task) : task * bool := (t, bool_decide (t = TLap)).

(** whether the trace carries an error-free callback for task [t] *)
Definition acked (evs : list event) (t : task) : bool :=
  existsb (fun e => match e with
                    | PublishDone t' false => bool_decide (t' = t)
                    | _ => false
                    end) evs.

(** the task that publishes on topic [k] *)
Definition topic_task (k : string) : option task :=
  find (fun t => String.eqb (task_topic t) k) all_tasks.

Definition line_topics : list string :=
  [MQTT_TOPIC_CONFIG_START; MQTT_TOPIC_CONFIG_FINISH; MQTT_TOPIC_CONFIG_LAP].

Definition line_tasks : list task := [TStart; TFinish; TLap].

(** the request property a task publishes *)
Definition line_field (t : task) : string :=
  match t with
  | TStart => "start"
  | TFinish => "finish"
  | TLap => "lap"
  | TTotalLaps => "totalLaps"
  | TIdealTime => "idealTime"
  end.

(** the three components of [post_set_lines] *)
Definition final_world (run : world * list response * list publish_call) : world :=
  fst (fst run).

Definition sent (run : world * list response * list publish_call) : list response :=
  snd (fst run).

Definition issued (run : world * list response * list publish_call)
  : list publish_call :=
  snd run.

(** *** Responses *)

(** the property [k] of the object a response carries *)
Definition answer_field (r : response) (k : string) : value :=
  field (own_properties (body r)) k.

Definition message_of (r : response) : value := answer_field r "message".

Definition details_of (r : response) : value := answer_field r "details".

Definition property_names (r : response) : list string :=
  map fst (own_properties (body r)).

(** some property of the response carries the number [n] *)
Definition reports_count (r : response) (n : Z) : Prop :=
  exists k, own_prop k (own_properties (body r)) = Some (VNum (num_of_Z n)).

(** the seconds field of the clock: two decimal digits *)
Definition two_digits (s : Z) : string :=
  String (ascii_of_nat (48 + Z.to_nat (s / 10)))
    (String (ascii_of_nat (48 + Z.to_nat (s mod 10))) EmptyString).

Section Payloads.
Context `{RT : Runtime}.

(** the payload [set_lines] publishes for task [t] *)
Definition payload_of (body : list (string * value)) (t : task) : string :=
  match t with
  | TStart => line_payload (field body "start")
  | TFinish => line_payload (field body "finish")
  | TLap => line_payload (field body "lap")
  | TTotalLaps => String_of (field body "totalLaps")
  | TIdealTime => String_of (field body "idealTime")
  end.

(** the runtime prints [v] to a non-empty text that parses back to [v] *)
Definition round_trips (v : value) : Prop :=
  JSON_stringify v <> "" /\ JSON_parse (JSON_stringify v) = Some v.

End Payloads.

(** what JSON has for a number: the number when it is finite, [null]
    otherwise *)
Definition json_number (v : value) : value :=
  match v with
  | VNum (Finite _) => v
  | VNum _ => VNull
  | other => other
  end.

(** a line with each coordinate as JSON has it *)
Definition json_point (p : value) : value :=
  VArr [json_number (elem p 0); json_number (elem p 1)].

Definition json_line (line : value) : value :=
  VArr [json_point (elem line 0); json_point (elem line 1)].

Section Wire.
Context `{RT : Runtime}.

(** the runtime prints the payload of [line] to a non-empty text and
    parses that text back as JSON does: to the same object, with [null]
    in place of each number that is not finite *)
Definition json_faithful (line : value) : Prop :=
  JSON_stringify (line_object line) <> ""
  /\ JSON_parse (JSON_stringify (line_object line))
     = Some (line_object (json_line line)).

End Wire.

(** the four coordinates of a line are finite numbers *)
Definition finite_line (line : value) : Prop :=
  exists lat1 lon1 lat2 lon2 : Q,
    line = VArr [VArr [VNum (Finite lat1); VNum (Finite lon1)];
                 VArr [VNum (Finite lat2); VNum (Finite lon2)]].

(** *** The structural constraints, as the specification words them *)

Definition is_point (p : value) : Prop :=
  exists x y : number, p = VArr [VNum x; VNum y].

(** an array of exactly two [number, number] points *)
Definition is_line (l : value) : Prop :=
  exists p1 p2 : value, l = VArr [p1; p2] /\ is_point p1 /\ is_point p2.


Definition is_nonneg_integer (v : value) : Prop :=
  exists (q : Q) (z : Z), v = VNum (Finite q) /\ (q == inject_Z z)%Q /\ 0 <= z.

Definition is_nonneg_number (v : value) : Prop :=
  v = VNum (Infinity false) \/ exists q : Q, v = VNum (Finite q) /\ (0 <= q)%Q.


(** *** The numeric defaults, as the specification words them *)

(** the stored text parsed as a base-10 integer, 0 when absent or unparseable *)
Definition default_totalLaps (stored : option string) : number :=
  match stored with
  | None => num_of_Z 0
  | Some text =>
      match parseInt10 text with
      | NaN => num_of_Z 0
      | n => n
      end
  end.

(** the stored text parsed as a float, 60 when absent or unparseable *)
Definition default_idealTime (stored : option string) : number :=
  match stored with
  | None => num_of_Z 60
  | Some text =>
      match parseFloat_str text with
      | NaN => num_of_Z 60
      | x => x
      end
  end.

(** ** Sample traffic

    The gates of the track scenario: start and finish on longitude 6.1,
    the lap line on longitude 6.2, between latitudes 49.600 and 49.601;
    three laps, an ideal lap of 58.5 s. *)

Definition point (lat lon : Q) : value := VArr [VNum (Finite lat); VNum (Finite lon)].

Definition start_gate : value :=
  VArr [point (248 # 5) (61 # 10); point (49601 # 1000) (61 # 10)].

Definition lap_gate : value :=
  VArr [point (248 # 5) (31 # 5); point (49601 # 1000) (31 # 5)].

Definition sample_body : list (string * value) :=
  [("start", start_gate); ("finish", start_gate); ("lap", lap_gate);
   ("totalLaps", VNum (num_of_Z 3)); ("idealTime", VNum (Finite (117 # 2)))].

(** a request whose start line has a latitude that is not finite, as the
    JSON number 1e999 is read *)
Definition far_gate : value :=
  VArr [VArr [VNum (Infinity false); VNum (Finite (61 # 10))];
        point (49601 # 1000) (61 # 10)].

Definition far_body : list (string * value) :=
  [("start", far_gate); ("finish", start_gate); ("lap", lap_gate);
   ("totalLaps", VNum (num_of_Z 3)); ("idealTime", VNum (num_of_Z 60))].



(** nothing retained, nothing received yet *)
Definition empty_world : world :=
  {| retained := ∅; currentConfig := initial_config |}.

(** a store whose start line is not JSON *)
Definition garbled_config : gmap string string :=
  {[ MQTT_TOPIC_CONFIG_START := "oops" ]}.

(** a store whose lap count has a trailing word and whose ideal time is
    not a number *)
Definition numeric_config : gmap string string :=
  <[ MQTT_TOPIC_CONFIG_TOTAL_LAPS := "12 laps" ]>
    {[ MQTT_TOPIC_IDEAL_TIME := "fast" ]}.

(** the lap line fails, then the timer fires before the other callbacks *)
Definition late_error_trace : list event :=
  [PublishDone TLap true; TimerFired; PublishDone TStart false;
   PublishDone TFinish false; PublishDone TTotalLaps false;
   PublishDone TIdealTime false].

(** the timer fires before five error-free callbacks *)
Definition late_success_trace : list event :=
  TimerFired :: ack_events (acknowledged all_tasks).

(** *** Vocabulary for the rest of the programs *)

(** [data.k] where [data] is not nullish *)
Definition member (data : value) (k : string) : value :=
  default VUndefined (prop data k).

Section Unreadable.
Context `{RT : Runtime}.

(** a stored line payload the [try] block of [/api/get-config] throws on:
    not JSON, or JSON for [null], or for a value whose [p1] or [p2] is
    missing or [null] *)
Definition unreadable (text : string) : Prop :=
  JSON_parse text = None
  \/ exists data, JSON_parse text = Some data
       /\ (nullish data = true \/ nullish (member data "p1") = true
           \/ nullish (member data "p2") = true).

(** [String(x)] parses back to [x] *)
Definition prints_back (x : number) : Prop :=
  parseFloat_str (Number_toString x) = x.

End Unreadable.

(** the five validation messages *)
Definition missing_lines_text : string :=
  "Missing line data (start, finish, or lap).".
Definition line_format_text : string :=
  "Incorrect line format. Each line must be an array of two [lat, lon] points.".
Definition point_format_text : string :=
  "Incorrect point format within a line. Points must be [lat, lon] arrays.".
Definition total_laps_text : string :=
  "Invalid total laps value. Must be a whole number >= 0.".
Definition ideal_time_text : string :=
  "Invalid ideal time value. Must be a number >= 0.".

(** the three lines of a request are well formed *)
Definition lines_well_formed (body : list (string * value)) : Prop :=
  is_line (field body "start") /\ is_line (field body "finish")
  /\ is_line (field body "lap").

(** the relay's [io.emit('race_update', raceData)] and
    [io.emit('speed_update', speedData)] in state [st] *)
Definition race_update (st : relay) : emission :=
  {| emit_name := "race_update"; emit_data := VObj (raceData st) |}.

Definition speed_update (st : relay) : emission :=
  {| emit_name := "speed_update"; emit_data := VObj (speedData st) |}.

(** [raceData] has the five required keys and [speedData] has [speed_kmh] *)
Definition relay_keys (st : relay) : Prop :=
  (forall k, In k requiredKeys -> has_key k (raceData st) = true)
  /\ has_key "speed_kmh" (speedData st) = true.

(** [x <= y] *)
Definition num_le (x y : number) : bool :=
  negb (isNaN x) && negb (isNaN y) && negb (num_lt y x).




(** a run of [n] nines *)
Fixpoint nines (n : nat) : string :=
  match n with
  | O => ""
  | S n' => String "9" (nines n')
  end.

(** sample messages for the relay *)
Definition sample_status : value :=
  VObj [("current_lap", VNum (num_of_Z 2)); ("total_laps", VNum (num_of_Z 5));
        ("last_lap_time_seconds", VNum (Finite (117 # 2)));
        ("race_finished", VBool false);
        ("current_lap_elapsed_seconds", VNum (Finite (25 # 2)));
        ("source", VStr "pi")].

Definition sample_speed : value := VObj [("speed_kmh", VNum (Finite (63 # 2)))].

(** a request with a negative lap count *)
Definition negative_laps_body : list (string * value) :=
  [("start", start_gate); ("finish", start_gate); ("lap", lap_gate);
   ("totalLaps", VNum (num_of_Z (-1))); ("idealTime", VNum (num_of_Z 60))].

(** two requests in flight, and two ways their events can arrive *)
Definition two_requests : server :=
  {| inflight := <[1%nat := fresh_closure]> {[ 2%nat := fresh_closure ]};
     answered := [] |}.

Definition timer_first : list (nat * event) :=
  [(1%nat, TimerFired); (2%nat, PublishDone TLap true)].

Definition timer_between : list (nat * event) :=
  [(2%nat, TimerFired); (1%nat, TimerFired); (2%nat, PublishDone TStart false)].

(** the callbacks of request 1 in task order, those of request 2 in the
    opposite order and followed by its timer, taken in turns *)
Definition overlapping_trace : list (nat * event) :=
  [(1%nat, PublishDone TStart false); (2%nat, PublishDone TIdealTime false);
   (1%nat, PublishDone TFinish false); (2%nat, PublishDone TTotalLaps false);
   (1%nat, PublishDone TLap false); (2%nat, PublishDone TLap false);
   (1%nat, PublishDone TTotalLaps false); (2%nat, PublishDone TFinish false);
   (1%nat, PublishDone TIdealTime false); (2%nat, PublishDone TStart false);
   (2%nat, TimerFired)].

(** * Facts *)

(** ** Rational arithmetic *)

Lemma Qfloor_unique (x : Q) (n : Z) :
  (inject_Z n <= x)%Q -> (x < inject_Z (n + 1))%Q -> Qfloor x = n.
Proof.
  intros Hlo Hhi.
  pose proof (Qfloor_le x) as Hf. pose proof (Qlt_floor x) as Hc.
  assert (n < Qfloor x + 1) by (rewrite Zlt_Qlt; eapply Qle_lt_trans; eauto).
  assert (Qfloor x < n + 1) by (rewrite Zlt_Qlt; eapply Qle_lt_trans; eauto).
  lia.
Qed.

Lemma Qred_inject_Z (z : Z) : Qred (inject_Z z) = inject_Z z.
Proof.
  unfold Qred, inject_Z.
  pose proof (Z.ggcd_gcd z 1) as Hg.
  pose proof (Z.ggcd_correct_divisors z 1) as Hd.
  destruct (Z.ggcd z 1) as [g [a b]]. simpl in *.
  rewrite Z.gcd_1_r in Hg. subst g. destruct Hd as [-> Hb].
  assert (b = 1) by lia. subst b. f_equal. lia.
Qed.

Lemma Qltb_false_of_le (a b : Q) : (b <= a)%Q -> Qltb a b = false.
Proof.
  intros H. unfold Qltb. destruct (Qcompare a b) eqn:E; try reflexivity.
  apply Qlt_alt in E. lra.
Qed.

Lemma Qltb_true_iff (a b : Q) : Qltb a b = true <-> (a < b)%Q.
Proof.
  unfold Qltb. rewrite Qlt_alt. destruct (Qcompare a b); split; congruence.
Qed.

Lemma clock_split (q : Q) :
  (0 <= q)%Q ->
  let k := Qfloor (q / 60) in
  let s0 := Qfloor (q - inject_Z k * 60 + (1 # 2)) in
  0 <= k /\ 0 <= s0 <= 60 /\ 60 * k + s0 = Qfloor (q + (1 # 2)).
Proof.
  intros Hq k. 
  pose proof (Qfloor_le (q / 60)) as Hlo. pose proof (Qlt_floor (q / 60)) as Hhi.
  fold k in Hlo, Hhi. rewrite inject_Z_plus in Hhi.
  assert (Hk : 0 <= k).
  { change 0 with (Qfloor (inject_Z 0)). apply Qfloor_resp_le.
    change (inject_Z 0) with 0%Q. apply Qle_shift_div_l; lra. }
  intros s0.
  assert (E : (q / 60 * 60 == q)%Q) by field.
  change (inject_Z 1) with 1%Q in Hhi.
  clearbody k. set (d := (q / 60)%Q) in *. clearbody d.
  assert (H1 : (inject_Z k * 60 <= q)%Q).
  { lra. }
  assert (H2 : (q < (inject_Z k + 1) * 60)%Q).
  { lra. }
  pose proof (Qfloor_le (q - inject_Z k * 60 + (1 # 2))) as Slo.
  pose proof (Qlt_floor (q - inject_Z k * 60 + (1 # 2))) as Shi.
  fold s0 in Slo, Shi. rewrite inject_Z_plus in Shi. change (inject_Z 1) with 1%Q in Shi.
  assert (Hs : 0 <= s0 <= 60).
  { split.
    - assert (-1 < s0); [|lia]. rewrite Zlt_Qlt. change (inject_Z (-1)) with (-1)%Q. lra.
    - assert (s0 < 61); [|lia]. rewrite Zlt_Qlt. change (inject_Z 61) with 61%Q. lra. }
  repeat split; try lia.
  symmetry. apply Qfloor_unique.
  - rewrite inject_Z_plus, inject_Z_mult. change (inject_Z 60) with 60%Q. lra.
  - rewrite !inject_Z_plus, inject_Z_mult. change (inject_Z 60) with 60%Q.
    change (inject_Z 1) with 1%Q. lra.
Qed.

(** ** The clock format *)

Section FormatTime.
Context `{RT : Runtime}.

Lemma Number_toString_small (z : Z) :
  0 <= z < 10 ^ 21 -> Number_toString (num_of_Z z) = Z_to_string z.
Proof.
  intros Hz. unfold Number_toString, num_of_Z. rewrite Qred_inject_Z. simpl.
  assert (Hlt : (Z.abs z <? 10 ^ 21) = true) by (apply Z.ltb_lt; lia).
  rewrite Hlt. reflexivity.
Qed.

Lemma padStart2_two_digits (s : Z) :
  0 <= s <= 59 -> padStart2 (Z_to_string s) = two_digits s.
Proof.
  intros Hs. rewrite <- (Z2Nat.id s) by lia.
  assert (Hn : (Z.to_nat s < 60)%nat) by lia.
  revert Hn. generalize (Z.to_nat s). clear Hs. intros n Hn.
  do 60 (destruct n as [|n]; [vm_compute; reflexivity|]). lia.
Qed.

Lemma formatTimeJS_catch (v : value) :
  formatTimeJS v = default "00:00" (formatTimeJS_try v).
Proof.
  destruct v; try reflexivity.
Qed.

Lemma num_add_one (k : Z) : num_add_fin (num_of_Z k) 1 = num_of_Z (k + 1).
Proof.
  unfold num_add_fin, num_of_Z. f_equal.
  rewrite <- (Qred_inject_Z (k + 1)). apply Qred_complete.
  rewrite inject_Z_plus. reflexivity.
Qed.

Lemma formatTimeJS_try_parsed (v : value) (x : number) :
  parseFloat v = Some x ->
  formatTimeJS_try v
  = if isNaN x || num_lt x (num_of_Z 0) then Some "00:00"
    else
      let minutes := Math_floor (num_div_pos x 60) in
      let remainingSeconds := Math_round (num_rem_pos x 60) in
      let '(minutes, remainingSeconds) :=
        if num_eqb remainingSeconds (num_of_Z 60)
        then (num_add_fin minutes 1, num_of_Z 0)
        else (minutes, remainingSeconds) in
      Some (padStart2 (Number_toString minutes) +:+ ":"
            +:+ padStart2 (Number_toString remainingSeconds)).
Proof.
  intros H. unfold formatTimeJS_try. rewrite H. reflexivity.
Qed.

Lemma formatTimeJS_try_finite (v : value) (q : Q) :
  parseFloat v = Some (Finite q) -> (0 <= q)%Q ->
  exists m s : Z,
    0 <= m /\ 0 <= s <= 59 /\ 60 * m + s = Qfloor (q + (1 # 2)) /\
    formatTimeJS_try v
    = Some (padStart2 (Number_toString (num_of_Z m)) +:+ ":" +:+ two_digits s).
Proof.
  intros Hp Hq. rewrite (formatTimeJS_try_parsed v _ Hp).
  cbv beta iota zeta delta [isNaN num_lt Math_floor Math_round num_div_pos num_rem_pos orb].
  unfold num_of_Z at 1.
  rewrite (Qltb_false_of_le q (inject_Z 0)) by exact Hq.
  assert (Hdiv : (0 <= q / 60)%Q) by (apply Qle_shift_div_l; lra).
  unfold Qtrunc. rewrite (Qltb_false_of_le (q / 60) 0) by exact Hdiv.
  rewrite (Qfloor_comp _ _ (Qred_correct (q / 60))).
  assert (Hr : Qfloor (Qred (q - inject_Z (Qfloor (q / 60)) * 60) + (1 # 2))
               = Qfloor (q - inject_Z (Qfloor (q / 60)) * 60 + (1 # 2))).
  { apply Qfloor_comp. rewrite Qred_correct. reflexivity. }
  rewrite Hr. clear Hr.
  destruct (clock_split q Hq) as (Hk & Hs & Hsum).
  set (k := Qfloor (q / 60)) in *.
  set (s0 := Qfloor (q - inject_Z k * 60 + (1 # 2))) in *.
  destruct (Z.eq_dec s0 60) as [E|E].
  - rewrite E. change (num_eqb (num_of_Z 60) (num_of_Z 60)) with true. cbv iota.
    exists (k + 1), 0. rewrite num_add_one.
    repeat split; try lia.
  - replace (num_eqb (num_of_Z s0) (num_of_Z 60)) with false.
    2:{ symmetry. unfold num_eqb, num_of_Z.
        destruct (Qeq_bool (inject_Z s0) (inject_Z 60)) eqn:B; [|reflexivity].
        apply Qeq_bool_eq in B. rewrite inject_Z_injective in B. lia. }
    exists k, s0. rewrite (Number_toString_small s0) by (change (10 ^ 21) with 1000000000000000000000; lia).
    rewrite padStart2_two_digits by lia.
    repeat split; try lia.
Qed.

(** C10. [formatTimeJS] always returns.  It returns "00:00" for [null],
    [undefined], an input whose conversion throws, an input [parseFloat]
    reads as NaN and an input it reads as negative.  For an input it reads
    as a finite [q >= 0] it returns the minutes, as [String] prints them
    and zero-padded to two characters, a colon and two decimal digits of
    seconds; the seconds are at most 59 and are [q] rounded to the nearest
    integer, modulo 60, so a remainder that rounds to 60 shows as 00.
    Below 2^53 seconds, where the rounding of binary64 leaves the floor of
    the quotient by 60 as it is, the minutes are plain decimal digits and
    [60 * minutes + seconds] is [q] rounded to the nearest integer: the
    remainder that rounds to 60 is carried into the minutes. *)
Theorem formatTimeJS_clamps_and_carries (v : value) :
  ((v = VNull \/ v = VUndefined \/ parseFloat v = None \/ parseFloat v = Some NaN
    \/ (exists x, parseFloat v = Some x /\ num_lt x (num_of_Z 0) = true)) ->
   formatTimeJS v = "00:00")
  /\ (forall q : Q, parseFloat v = Some (Finite q) -> (0 <= q)%Q ->
      exists m s : Z,
        0 <= m /\ 0 <= s <= 59 /\ s = Qfloor (q + (1 # 2)) mod 60 /\
        formatTimeJS v
        = padStart2 (Number_toString (num_of_Z m)) +:+ ":" +:+ two_digits s /\
        ((q < inject_Z (2 ^ 53))%Q ->
         60 * m + s = Qfloor (q + (1 # 2))
         /\ Number_toString (num_of_Z m) = Z_to_string m)).
Proof.
  split.
  - intros [-> | [-> | [H | [H | (x & H & Hneg)]]]]; try reflexivity;
      rewrite formatTimeJS_catch.
    + unfold formatTimeJS_try. rewrite H. reflexivity.
    + rewrite (formatTimeJS_try_parsed _ _ H). reflexivity.
    + rewrite (formatTimeJS_try_parsed _ _ H), Hneg, orb_true_r. reflexivity.
  - intros q Hp Hq.
    destruct (formatTimeJS_try_finite v q Hp Hq) as (m & s & Hm & Hs & Hsum & Hf).
    exists m, s. split; [exact Hm|]. split; [exact Hs|]. split; [|split].
    + rewrite <- Hsum. apply (Z.mod_unique_pos _ _ m); lia.
    + rewrite formatTimeJS_catch, Hf. reflexivity.
    + intros Hlt. split; [exact Hsum|]. apply Number_toString_small.
      assert (Hr : Qfloor (q + (1 # 2)) <= 2 ^ 53).
      { assert (Hle : (inject_Z (Qfloor (q + (1 # 2))) <= q + (1 # 2))%Q)
          by apply Qfloor_le.
        assert (Hz : (inject_Z (Qfloor (q + (1 # 2))) < inject_Z (2 ^ 53 + 1))%Q).
        { rewrite inject_Z_plus. change (inject_Z 1) with 1%Q.
          set (b := inject_Z (2 ^ 53)) in *. clearbody b. lra. }
        rewrite <- Zlt_Qlt in Hz. lia. }
      change (10 ^ 21) with 1000000000000000000000.
      change (2 ^ 53) with 9007199254740992 in Hr. lia.
Qed.

(** *** Whole seconds *)

Lemma span_digits_uint (d : Decimal.uint) :
  span_digits (NilEmpty.string_of_uint d)
  = (list_ascii_of_string (NilEmpty.string_of_uint d), EmptyString).
Proof.
  induction d; cbn [NilEmpty.string_of_uint span_digits list_ascii_of_string];
    try reflexivity;
    (change (is_digit _) with true; cbn iota; rewrite IHd; reflexivity).
Qed.

Lemma digits_uint_acc (d : Decimal.uint) (acc : positive) :
  fold_left (fun a c => 10 * a + digit_val c)
    (list_ascii_of_string (NilEmpty.string_of_uint d)) (Zpos acc)
  = Zpos (Pos.of_uint_acc d acc).
Proof.
  revert acc.
  induction d; intros acc;
    cbn [NilEmpty.string_of_uint list_ascii_of_string fold_left Pos.of_uint_acc];
    try reflexivity;
    rewrite <- IHd; f_equal; vm_compute digit_val; lia.
Qed.

Lemma digits_uint (d : Decimal.uint) :
  digits_val (list_ascii_of_string (NilEmpty.string_of_uint d)) = Z.of_uint d.
Proof.
  unfold digits_val, Z.of_uint.
  induction d;
    cbn [NilEmpty.string_of_uint list_ascii_of_string fold_left Pos.of_uint];
    try reflexivity;
    first [exact IHd
          | cbn [Z.of_N]; rewrite <- digits_uint_acc; reflexivity].
Qed.

Lemma Qred_times_one (z : Z) : Qred (inject_Z z * Qpower (10 # 1) (0 - 0)) = inject_Z z.
Proof.
  rewrite <- (Qred_inject_Z z) at 2. apply Qred_complete.
  change (Qpower (10 # 1) (0 - 0)) with 1%Q. ring.
Qed.

Lemma underflow_at_small : (underflow_at < 1)%Q.
Proof. vm_compute. reflexivity. Qed.

Lemma small_below_overflow : 10 ^ 21 < overflow_at.
Proof. vm_compute. reflexivity. Qed.

(** a non-negative integer below the overflow bound is its own Number *)
Lemma Number_of_integer (z : Z) :
  0 <= z < overflow_at ->
  Number_of false (inject_Z z * Qpower (10 # 1) (0 - 0)) = num_of_Z z.
Proof.
  intros Hz. unfold Number_of.
  assert (Hv : (inject_Z z * Qpower (10 # 1) (0 - 0) == inject_Z z)%Q)
    by (change (Qpower (10 # 1) (0 - 0)) with 1%Q; ring).
  assert (Hz0 : (0 <= inject_Z z)%Q)
    by (change (inject_Z 0 <= inject_Z z)%Q; rewrite <- Zle_Qle; lia).
  assert (Habs : (Qabs (inject_Z z * Qpower (10 # 1) (0 - 0)) == inject_Z z)%Q)
    by (rewrite Hv; apply Qabs_pos; exact Hz0).
  destruct (Qle_bool (inject_Z overflow_at) _) eqn:Eo.
  { apply Qle_bool_iff in Eo. rewrite Habs, <- Zle_Qle in Eo. lia. }
  destruct (Qle_bool _ underflow_at) eqn:Eu.
  - apply Qle_bool_iff in Eu. rewrite Habs in Eu.
    pose proof underflow_at_small as Hu.
    assert (Hlt : (inject_Z z < inject_Z 1)%Q)
      by (change (inject_Z 1) with 1%Q; lra).
    rewrite <- Zlt_Qlt in Hlt. assert (z = 0) as -> by lia. reflexivity.
  - unfold num_of_Z. rewrite Qred_times_one. reflexivity.
Qed.

Lemma parseFloat_str_uint (d : Decimal.uint) :
  Z.of_uint d < overflow_at ->
  parseFloat_str (NilZero.string_of_uint d) = num_of_Z (Z.of_uint d).
Proof.
  intros Hd.
  assert (H0 : 0 <= Z.of_uint d) by (unfold Z.of_uint; lia).
  revert Hd H0.
  destruct d as [|d|d|d|d|d|d|d|d|d|d]; [reflexivity|..]; intros Hd H0;
    unfold NilZero.string_of_uint;
    match goal with
    | |- parseFloat_str (NilEmpty.string_of_uint ?u) = _ =>
        rewrite <- (digits_uint u) in Hd, H0 |- *; unfold parseFloat_str;
        assert (Ht : trim_start (NilEmpty.string_of_uint u)
                     = NilEmpty.string_of_uint u)
          by (cbn [NilEmpty.string_of_uint];
              destruct (NilEmpty.string_of_uint d) as [|b [|c r]]; reflexivity);
        rewrite Ht;
        assert (Hs : take_sign (NilEmpty.string_of_uint u)
                     = (false, NilEmpty.string_of_uint u)) by reflexivity;
        rewrite Hs;
        assert (Hi : starts_with "Infinity" (NilEmpty.string_of_uint u) = false)
          by reflexivity;
        rewrite Hi, span_digits_uint, app_nil_r
    end;
    cbn [NilEmpty.string_of_uint list_ascii_of_string exponent_part length signed
         Z.of_nat] in *;
    apply Number_of_integer; split; assumption.
Qed.

Lemma parseFloat_str_Z_to_string (z : Z) :
  0 <= z < overflow_at -> parseFloat_str (Z_to_string z) = num_of_Z z.
Proof.
  intros Hz. unfold Z_to_string.
  rewrite <- (DecimalZ.of_to z) at 2.
  assert (Hd : Z.of_int (Z.to_int z) < overflow_at)
    by (rewrite DecimalZ.of_to; lia).
  destruct z as [|p|p]; [reflexivity | | lia].
  cbn [Z.to_int NilZero.string_of_int Z.of_int] in *. apply parseFloat_str_uint.
  exact Hd.
Qed.

Lemma parseFloat_whole (z : Z) :
  0 <= z < 10 ^ 21 -> parseFloat (VNum (num_of_Z z)) = Some (num_of_Z z).
Proof.
  intros Hz. unfold parseFloat. cbn [ToString mbind option_bind].
  rewrite (Number_toString_small z Hz), parseFloat_str_Z_to_string;
    [reflexivity|].
  pose proof small_below_overflow. lia.
Qed.

(** X18. A whole number of seconds from 0 to below 2^53 is shown as its
    quotient by 60 in decimal digits, padded to two, a colon, and its
    remainder by 60 as two digits. *)
Lemma formatTimeJS_whole_seconds (z : Z) :
  0 <= z < 2 ^ 53 ->
  formatTimeJS (VNum (num_of_Z z))
  = padStart2 (Z_to_string (z / 60)) +:+ ":" +:+ two_digits (z mod 60).
Proof.
  intros Hb.
  assert (Hz : 0 <= z < 10 ^ 21).
  { change (2 ^ 53) with 9007199254740992 in Hb.
    change (10 ^ 21) with 1000000000000000000000. lia. }
  assert (Hq : (0 <= inject_Z z)%Q)
    by (change (inject_Z 0 <= inject_Z z)%Q; rewrite <- Zle_Qle; lia).
  destruct (formatTimeJS_try_finite _ _ (parseFloat_whole z Hz) Hq)
    as (m & s & Hm & Hs & Hsum & Hf).
  assert (Hround : Qfloor (inject_Z z + (1 # 2)) = z).
  { apply Qfloor_unique; rewrite ?inject_Z_plus; change (inject_Z 1) with 1%Q; lra. }
  rewrite Hround in Hsum.
  assert (m = z / 60 /\ s = z mod 60) as [-> ->].
  { pose proof (Z.div_mod z 60 ltac:(lia)). pose proof (Z.mod_pos_bound z 60 ltac:(lia)).
    assert (m = z / 60) by nia. lia. }
  rewrite formatTimeJS_catch, Hf. cbn [default].
  rewrite (Number_toString_small (z / 60)); [reflexivity|].
  split; [apply Z.div_pos; lia|].
  apply Z.le_lt_trans with z; [|lia]. apply Z.div_le_upper_bound; lia.
Qed.

End FormatTime.

Lemma formatTimeJS_witness :
  parseFloat (RT := PlainText.runtime) (VStr "abc") = Some NaN
  /\ formatTimeJS (RT := PlainText.runtime) (VStr "abc") = "00:00"
  /\ parseFloat (RT := PlainText.runtime) (VNum (Finite (239 # 2)))
     = Some (Finite (239 # 2))
  /\ (0 <= 239 # 2)%Q
  /\ (239 # 2 < inject_Z (2 ^ 53))%Q
  /\ formatTimeJS (RT := PlainText.runtime) (VNum (Finite (239 # 2))) = "02:00".
Proof.
  assert (Hnan : parseFloat (RT := PlainText.runtime) (VStr "abc") = Some NaN)
    by (vm_compute; reflexivity).
  assert (Hfin : parseFloat (RT := PlainText.runtime) (VNum (Finite (239 # 2)))
                 = Some (Finite (239 # 2))) by (vm_compute; reflexivity).
  assert (Hq : (0 <= 239 # 2)%Q) by (unfold Qle; simpl; lia).
  assert (Hb : (239 # 2 < inject_Z (2 ^ 53))%Q) by (vm_compute; reflexivity).
  split; [exact Hnan|].
  split; [|split; [exact Hfin|split; [exact Hq|split; [exact Hb|]]]].
  - apply (formatTimeJS_clamps_and_carries (RT := PlainText.runtime) (VStr "abc")).
    right; right; right; left. exact Hnan.
  - destruct (proj2 (formatTimeJS_clamps_and_carries (RT := PlainText.runtime)
                       (VNum (Finite (239 # 2)))) (239 # 2) Hfin Hq)
      as (m & s & Hm & Hs & _ & Hf & Hexact).
    destruct (Hexact Hb) as [Hsum _].
    change (Qfloor ((239 # 2) + (1 # 2))) with 120 in Hsum.
    assert (m = 2 /\ s = 0) as [-> ->] by lia.
    rewrite Hf. vm_compute. reflexivity.
Defined.

(** ** The completion bookkeeping of a request *)

Section Completion.

Lemma react_sent (e : event) (c : closure) :
  responseSent c = true ->
  snd (react e c) = [] /\ responseSent (fst (react e c)) = true.
Proof.
  intros Hs. destruct e as [t [|]|]; cbn;
    unfold publish_callback, timeout_callback, checkCompletion; cbn;
    rewrite Hs; cbn; auto.
Qed.

Lemma checkCompletion_pending (c : closure) :
  responseSent c = false ->
  (snd (checkCompletion c) = [] /\ responseSent (fst (checkCompletion c)) = false)
  \/ (exists r, snd (checkCompletion c) = [r]
                /\ responseSent (fst (checkCompletion c)) = true).
Proof.
  intros Hs. unfold checkCompletion. rewrite Hs.
  destruct (Nat.eqb _ totalTasks).
  - right. destruct (Nat.ltb 0 _); eexists; split; reflexivity.
  - left. split; [reflexivity | exact Hs].
Qed.

Lemma react_pending (e : event) (c : closure) :
  responseSent c = false ->
  (snd (react e c) = [] /\ responseSent (fst (react e c)) = false)
  \/ (exists r, snd (react e c) = [r] /\ responseSent (fst (react e c)) = true).
Proof.
  intros Hs. destruct e as [t err|]; cbn [react].
  - unfold publish_callback. destruct err; apply checkCompletion_pending; exact Hs.
  - unfold timeout_callback. rewrite Hs. right. eexists. split; reflexivity.
Qed.

Lemma react_all_cons (e : event) (evs : list event) (c : closure) :
  react_all (e :: evs) c
  = (fst (react_all evs (fst (react e c))),
     snd (react e c) ++ snd (react_all evs (fst (react e c)))).
Proof.
  cbn [react_all]. destruct (react e c) as [c1 out1]. cbn [fst snd].
  destruct (react_all evs c1) as [c2 out2]. reflexivity.
Qed.

Lemma react_all_app (xs ys : list event) (c : closure) :
  react_all (xs ++ ys) c
  = (fst (react_all ys (fst (react_all xs c))),
     snd (react_all xs c) ++ snd (react_all ys (fst (react_all xs c)))).
Proof.
  revert c. induction xs as [|e xs IH]; intros c.
  - cbn. destruct (react_all ys c). reflexivity.
  - rewrite <- app_comm_cons, !react_all_cons, IH. cbn [fst snd].
    rewrite app_assoc. reflexivity.
Qed.

Lemma react_all_sent (evs : list event) (c : closure) :
  responseSent c = true ->
  snd (react_all evs c) = [] /\ responseSent (fst (react_all evs c)) = true.
Proof.
  revert c. induction evs as [|e evs IH]; intros c Hs.
  - auto.
  - rewrite react_all_cons. cbn [fst snd].
    destruct (react_sent e c Hs) as [Ho Hs1]. rewrite Ho.
    exact (IH _ Hs1).
Qed.

Lemma react_all_at_most_one (evs : list event) (c : closure) :
  (length (snd (react_all evs c)) <= 1)%nat.
Proof.
  revert c. induction evs as [|e evs IH]; intros c.
  - cbn. lia.
  - rewrite react_all_cons. cbn [snd]. rewrite length_app.
    destruct (responseSent c) eqn:Hs.
    + destruct (react_sent e c Hs) as [Ho Hs1]. rewrite Ho. cbn. apply IH.
    + destruct (react_pending e c Hs) as [[Ho _] | (r & Ho & Hs1)]; rewrite Ho; cbn.
      * apply IH.
      * destruct (react_all_sent evs _ Hs1) as [Hn _]. rewrite Hn. cbn. lia.
Qed.

Lemma react_all_timer (evs : list event) (c : closure) :
  responseSent c = false -> In TimerFired evs ->
  length (snd (react_all evs c)) = 1%nat.
Proof.
  revert c. induction evs as [|e evs IH]; intros c Hs Hin.
  - destruct Hin.
  - rewrite react_all_cons. cbn [snd]. rewrite length_app.
    destruct (react_pending e c Hs) as [[Ho Hs1] | (r & Ho & Hs1)]; rewrite Ho; cbn.
    + destruct Hin as [-> | Hin].
      * cbn in Ho. unfold timeout_callback in Ho. rewrite Hs in Ho. discriminate.
      * apply IH; assumption.
    + destruct (react_all_sent evs _ Hs1) as [Hn _]. rewrite Hn. reflexivity.
Qed.

(** callbacks that leave the count below [totalTasks] only update the
    bookkeeping *)
Lemma react_acks_pending (acks : list (task * bool)) (c : closure) :
  responseSent c = false ->
  (successes c + length (errors c) + length acks < totalTasks)%nat ->
  react_all (ack_events acks) c
  = ({| errors := errors c ++ failures acks;
        successes := successes c + length (List.filter (fun a => negb (snd a)) acks);
        responseSent := false |}, []).
Proof.
  revert c. induction acks as [|[t err] acks IH]; intros c Hs Hlt.
  - cbn. destruct c; cbn in *. subst. rewrite app_nil_r, Nat.add_0_r. reflexivity.
  - cbn [ack_events map]. rewrite react_all_cons. fold (ack_events acks).
    cbn [length] in Hlt.
    cbn [react fst snd]. unfold publish_callback, checkCompletion.
    destruct err; cbn [errors successes responseSent]; rewrite Hs.
    + rewrite length_app. cbn [length].
      replace (Nat.eqb _ totalTasks) with false by (symmetry; apply Nat.eqb_neq; lia).
      cbn [fst snd].
      rewrite IH by (cbn [errors successes responseSent];
                     first [assumption | rewrite ?length_app; cbn [length]; lia]).
      cbn [errors successes responseSent].
      unfold failures, failed_tasks. cbn. rewrite <- app_assoc. reflexivity.
    + replace (Nat.eqb _ totalTasks) with false by (symmetry; apply Nat.eqb_neq; lia).
      cbn [fst snd].
      rewrite IH by (cbn [errors successes responseSent]; first [assumption | lia]).
      cbn [errors successes responseSent].
      unfold failures, failed_tasks. cbn. f_equal. f_equal. lia.
Qed.

(** the callback that brings the count to [totalTasks] answers *)
Lemma react_acks_complete (acks : list (task * bool)) (c : closure) :
  responseSent c = false ->
  (0 < length acks)%nat ->
  (successes c + length (errors c) + length acks = totalTasks)%nat ->
  react_all (ack_events acks) c
  = ({| errors := errors c ++ failures acks;
        successes := successes c + length (List.filter (fun a => negb (snd a)) acks);
        responseSent := true |},
     [match errors c ++ failures acks with
      | [] => success_response
      | errs => failure_response errs
      end]).
Proof.
  intros Hs Hpos Htot.
  destruct (exists_last (l := acks)) as (pre & [t err] & ->).
  { destruct acks; [cbn in Hpos; lia | discriminate]. }
  rewrite length_app in Htot. cbn [length] in Htot.
  unfold ack_events. rewrite map_app. fold (ack_events pre). cbn [map fst snd].
  rewrite react_all_app, react_acks_pending by (assumption || lia).
  cbn [fst snd react_all react]. unfold publish_callback, checkCompletion.
  assert (Hf : failures (pre ++ [(t, err)])
               = failures pre ++ (if err then [failure_text t] else [])).
  { unfold failures, failed_tasks. rewrite List.filter_app, !map_app. cbn.
    destruct err; reflexivity. }
  rewrite Hf, List.filter_app, length_app.
  assert (Hcount : (length (List.filter (fun a => negb (snd a)) pre)
                    + length (failures pre) = length pre)%nat).
  { unfold failures, failed_tasks. rewrite !length_map.
    clear. induction pre as [|[? []] pre IH]; cbn; lia. }
  pose proof (length_app (errors c) (failures pre)) as Hlen.
  destruct err; cbn [errors successes responseSent List.filter negb snd length].
  - rewrite app_assoc.
    replace (Nat.eqb _ totalTasks) with true
      by (symmetry; apply Nat.eqb_eq; rewrite length_app; cbn [length]; lia).
    rewrite length_app. cbn [length].
    replace (Nat.ltb 0 _) with true by (symmetry; apply Nat.ltb_lt; lia).
    cbn [app]. rewrite Nat.add_0_r.
    destruct ((errors c ++ failures pre) ++ [failure_text t]) eqn:E; [|reflexivity].
    apply app_eq_nil in E. destruct E; discriminate.
  - rewrite app_nil_r.
    replace (Nat.eqb _ totalTasks) with true
      by (symmetry; apply Nat.eqb_eq; lia).
    replace (S (successes c + length (List.filter (fun a => negb (snd a)) pre)))
      with (successes c + (length (List.filter (fun a => negb (snd a)) pre) + 1))%nat
      by lia.
    destruct (errors c ++ failures pre) as [|e0 es]; reflexivity.
Qed.

End Completion.

Section SetLinesFacts.
Context `{RT : Runtime}.

Lemma post_set_lines_started (w : world) (body : list (string * value))
    (evs : list event) :
  validate body = None ->
  post_set_lines true w body evs
  = (settle_all (publish_calls body) evs w, snd (react_all evs fresh_closure),
     publish_calls body).
Proof.
  intros Hv. unfold post_set_lines, set_lines. rewrite Hv. reflexivity.
Qed.

Lemma react_timer_sent (c : closure) :
  responseSent (fst (react TimerFired c)) = true.
Proof.
  cbn. unfold timeout_callback. destruct (responseSent c) eqn:E; [exact E | reflexivity].
Qed.

Lemma react_all_after_timer (pre post : list event) (c : closure) :
  snd (react_all (pre ++ TimerFired :: post) c)
  = snd (react_all (pre ++ [TimerFired]) c).
Proof.
  rewrite !react_all_app. cbn [snd]. f_equal.
  rewrite !react_all_cons. cbn [snd react_all].
  destruct (react_all_sent post _ (react_timer_sent (fst (react_all pre c)))) as [-> _].
  reflexivity.
Qed.

Lemma failures_nil_iff (acks : list (task * bool)) :
  failures acks = [] <-> Forall (fun a => snd a = false) acks.
Proof.
  unfold failures, failed_tasks. induction acks as [|[t []] acks IH]; cbn.
  - split; [constructor | reflexivity].
  - split; [discriminate | intros H; inversion H; discriminate].
  - rewrite IH. split; [intros H; constructor; [reflexivity | exact H]
                       | intros H; inversion H; assumption].
Qed.

Lemma failed_tasks_spec (acks : list (task * bool)) (t : task) :
  In t (failed_tasks acks) <-> In (t, true) acks.
Proof.
  unfold failed_tasks. rewrite in_map_iff. split.
  - intros ([t' e] & <- & Hin). apply List.filter_In in Hin as [Hin He].
    cbn in He. subst e. exact Hin.
  - intros Hin. exists (t, true). split; [reflexivity|].
    apply List.filter_In. split; [exact Hin | reflexivity].
Qed.

Lemma failed_tasks_NoDup (acks : list (task * bool)) :
  List.NoDup (map fst acks) -> List.NoDup (failed_tasks acks).
Proof.
  unfold failed_tasks. induction acks as [|[t e] acks IH]; cbn; intros H.
  - constructor.
  - apply List.NoDup_cons_iff in H as [Hn H]. destruct e; cbn; [|auto].
    apply List.NoDup_cons_iff. split; [|auto].
    intros Hin. apply Hn. apply in_map_iff in Hin as (a & Ha & Hin).
    apply in_map_iff. exists a. split; [exact Ha|].
    apply List.filter_In in Hin as [Hin _]. exact Hin.
Qed.

Lemma all_tasks_NoDup : List.NoDup all_tasks.
Proof.
  unfold all_tasks. repeat constructor; cbn; intuition discriminate.
Qed.

(** once all [totalTasks] callbacks have run, the one response sent is the
    success report or the itemised failure report *)
Lemma sent_after_callbacks (w : world) (body : list (string * value))
    (acks : list (task * bool)) (post : list event) :
  validate body = None ->
  length acks = totalTasks ->
  sent (post_set_lines true w body (ack_events acks ++ post))
  = [match failures acks with
     | [] => success_response
     | errs => failure_response errs
     end].
Proof.
  intros Hv Hlen. rewrite (post_set_lines_started _ _ _ Hv). unfold sent.
  cbn [fst snd]. rewrite react_all_app. cbn [snd].
  rewrite (react_acks_complete acks fresh_closure);
    [|reflexivity | rewrite Hlen; unfold totalTasks; lia | cbn; exact Hlen].
  cbn [fst snd].
  match goal with
  | |- context [react_all post ?c] =>
      destruct (react_all_sent post c eq_refl) as [-> _]
  end.
  reflexivity.
Qed.

Lemma length_of_all_tasks (acks : list (task * bool)) :
  Permutation (map fst acks) all_tasks -> length acks = totalTasks.
Proof.
  intros Hperm. rewrite <- (length_map fst acks), (Permutation_length Hperm).
  reflexivity.
Qed.

(** C8. Every execution of the [/api/set-lines] handler sends exactly
    one response.  Whatever callbacks run and in whatever order, at most
    one response is sent; once the timer has fired exactly one has been
    sent; and the callbacks that run after the timer add nothing to what
    was sent up to it. *)
Theorem set_lines_responds_exactly_once (connected : bool) (w : world)
    (body : list (string * value)) :
  (forall evs, (length (sent (post_set_lines connected w body evs)) <= 1)%nat)
  /\ (forall evs, In TimerFired evs ->
        length (sent (post_set_lines connected w body evs)) = 1%nat)
  /\ (forall pre post,
        sent (post_set_lines connected w body (pre ++ TimerFired :: post))
        = sent (post_set_lines connected w body (pre ++ [TimerFired]))).
Proof.
  unfold post_set_lines, set_lines, sent.
  destruct (validate body) as [r|]; [cbn; auto|].
  destruct connected; cbn [negb fst snd]; [|cbn; auto].
  split; [|split].
  - intros evs. apply react_all_at_most_one.
  - intros evs Hin. apply react_all_timer; [reflexivity | exact Hin].
  - intros pre post. apply react_all_after_timer.
Qed.

(** C3. When the timer fires on a validated request before all five
    publish callbacks have run, the caller receives the timeout report
    carrying the errors seen so far, and nothing else; its status 508 and
    its message differ from those of the confirmed-failure report and of
    the success report. *)
Theorem set_lines_timeout_reports_unknown (w : world)
    (body : list (string * value)) (acks : list (task * bool)) (post : list event) :
  validate body = None ->
  (length acks < totalTasks)%nat ->
  sent (post_set_lines true w body (ack_events acks ++ TimerFired :: post))
  = [timeout_response (failures acks)]
  /\ status (timeout_response (failures acks)) = 508
  /\ (forall errs,
        status (timeout_response (failures acks)) <> status (failure_response errs)
        /\ message_of (timeout_response (failures acks))
           <> message_of (failure_response errs))
  /\ status (timeout_response (failures acks)) <> status success_response
  /\ message_of (timeout_response (failures acks)) <> message_of success_response.
Proof.
  intros Hv Hlt. rewrite (post_set_lines_started _ _ _ Hv). unfold sent. cbn [fst snd].
  split; [|split; [reflexivity|];
           split; [intros errs; split; cbn; discriminate|];
           split; cbn; discriminate].
  rewrite react_all_app.
  rewrite react_acks_pending by (first [reflexivity | exact Hlt]).
  cbn [fst snd errors app]. rewrite react_all_cons. cbn [fst snd react].
  unfold timeout_callback. cbn [responseSent errors fst snd].
  match goal with
  | |- context [react_all post ?c] =>
      destruct (react_all_sent post c eq_refl) as [-> _]
  end.
  reflexivity.
Qed.

(** C1, amended. For a validated request on a connected client whose
    five publish callbacks all run before the timer fires, the response is
    the success report if and only if every callback is free of error; if
    a callback reports an error the response is the HTTP 500 failure
    report, whose details hold one entry per failed topic, in callback
    order. *)
Theorem set_lines_reports_outcome (w : world) (body : list (string * value))
    (acks : list (task * bool)) (post : list event) :
  validate body = None ->
  Permutation (map fst acks) all_tasks ->
  let answers := sent (post_set_lines true w body (ack_events acks ++ post)) in
  (answers = [success_response] <-> Forall (fun a => snd a = false) acks)
  /\ (Exists (fun a => snd a = true) acks ->
      answers = [failure_response (failures acks)]
      /\ details_of (failure_response (failures acks))
         = VArr (map VStr (map failure_text (failed_tasks acks)))
      /\ List.NoDup (failed_tasks acks)
      /\ forall t, In t (failed_tasks acks) <-> In (t, true) acks).
Proof.
  intros Hv Hperm answers.
  assert (Hans : answers
                 = [match failures acks with
                    | [] => success_response
                    | errs => failure_response errs
                    end]).
  { apply (sent_after_callbacks w body acks post Hv), length_of_all_tasks, Hperm. }
  split.
  - rewrite Hans, <- failures_nil_iff.
    destruct (failures acks) eqn:E; split; try reflexivity; try discriminate.
  - intros Hex. rewrite Hans.
    assert (Hne : failures acks <> []).
    { rewrite failures_nil_iff. intros Hall.
      apply Exists_exists in Hex as (a & Ha & Hbad).
      rewrite Forall_forall in Hall. specialize (Hall a Ha). congruence. }
    repeat split.
    + destruct (failures acks); [contradiction | reflexivity].
    + apply failed_tasks_NoDup.
      apply (Permutation_NoDup (Permutation_sym Hperm)), all_tasks_NoDup.
    + apply failed_tasks_spec.
    + apply failed_tasks_spec.
Qed.

End SetLinesFacts.

(** ** The broker and the stored configuration *)

Section Broker.
Context `{RT : Runtime}.

Lemma call_of_publish_calls (body : list (string * value)) (t : task) :
  call_of (publish_calls body) t
  = Some {| call_task := t; call_topic := task_topic t;
            call_payload := payload_of body t |}.
Proof. destruct t; reflexivity. Qed.

Lemma topic_task_topic (t : task) : topic_task (task_topic t) = Some t.
Proof. destruct t; reflexivity. Qed.

Lemma topic_task_Some (k : string) (t : task) :
  topic_task k = Some t -> task_topic t = k.
Proof.
  unfold topic_task. intros H. apply find_some in H as [_ H].
  apply String.eqb_eq in H. exact H.
Qed.

Lemma on_message_config (t : task) (payload : string) (cfg : gmap string string) :
  on_message (task_topic t) payload cfg = <[task_topic t := payload]> cfg.
Proof. destruct t; reflexivity. Qed.

Lemma settle_all_cons (calls : list publish_call) (e : event) (evs : list event)
    (w : world) :
  settle_all calls (e :: evs) w = settle_all calls evs (settle calls e w).
Proof. reflexivity. Qed.

Lemma settle_publish (body : list (string * value)) (e : event) (w : world) :
  settle (publish_calls body) e w
  = match e with
    | PublishDone t false =>
        {| retained := <[task_topic t := payload_of body t]> (retained w);
           currentConfig := <[task_topic t := payload_of body t]> (currentConfig w) |}
    | _ => w
    end.
Proof.
  destruct e as [t [|]|]; try reflexivity.
  unfold settle. rewrite call_of_publish_calls. unfold deliver. cbn.
  rewrite on_message_config. reflexivity.
Qed.

(** what a topic holds once the events of a request have settled *)
Lemma settle_all_lookup (body : list (string * value)) (evs : list event)
    (w : world) (k : string) :
  let w' := settle_all (publish_calls body) evs w in
  let after (before : option string) : option string :=
    match topic_task k with
    | Some t => if acked evs t then Some (payload_of body t) else before
    | None => before
    end in
  retained w' !! k = after (retained w !! k)
  /\ currentConfig w' !! k = after (currentConfig w !! k).
Proof.
  revert w. induction evs as [|e evs IH]; intros w; cbn zeta.
  - cbn [settle_all fold_left acked existsb]. destruct (topic_task k); auto.
  - rewrite settle_all_cons. specialize (IH (settle (publish_calls body) e w)).
    cbn zeta in IH. destruct IH as [IHr IHc]. rewrite IHr, IHc.
    rewrite settle_publish. clear IHr IHc.
    destruct e as [t0 [|]|]; cbn [acked existsb orb]; fold (acked evs);
      try solve [destruct (topic_task k); auto].
    cbn [retained currentConfig].
    destruct (decide (task_topic t0 = k)) as [<- | Hne].
    + rewrite topic_task_topic, !lookup_insert_eq.
      rewrite bool_decide_eq_true_2 by reflexivity. cbn [orb].
      destruct (acked evs t0); auto.
    + rewrite !lookup_insert_ne by exact Hne.
      destruct (topic_task k) as [t|] eqn:Ht; auto.
      rewrite bool_decide_eq_false_2; [cbn [orb]; auto|].
      intros ->. apply topic_task_Some in Ht. contradiction.
Qed.

Lemma acked_app (xs ys : list event) (t : task) :
  acked (xs ++ ys) t = acked xs t || acked ys t.
Proof. unfold acked. apply existsb_app. Qed.

Lemma acked_acknowledged (ts : list task) (t : task) :
  In t ts -> acked (ack_events (acknowledged ts)) t = true.
Proof.
  intros Hin. unfold acked. apply existsb_exists.
  exists (PublishDone t false). split.
  - unfold ack_events, acknowledged. rewrite map_map. cbn.
    apply in_map_iff. exists t. auto.
  - apply bool_decide_eq_true_2. reflexivity.
Qed.

Lemma all_tasks_complete (t : task) : In t all_tasks.
Proof. destruct t; cbn; auto 10. Qed.

Lemma failures_acknowledged (ts : list task) : failures (acknowledged ts) = [].
Proof.
  apply failures_nil_iff. unfold acknowledged. apply Forall_forall.
  intros a Ha. apply list_elem_of_In, in_map_iff in Ha as (t & <- & _). reflexivity.
Qed.

(** C7. Two successive identical valid updates, each with its five
    publishes acknowledged before its timer, both answer with the success
    report, and the second leaves the broker's retained payloads and the
    server's [currentConfig] as the first left them.  The second answer is
    the success report whatever happened to an earlier request. *)
Theorem set_lines_replay_idempotent (w : world) (body : list (string * value))
    (ts1 ts2 : list task) (post1 post2 : list event) :
  validate body = None ->
  Permutation ts1 all_tasks ->
  Permutation ts2 all_tasks ->
  let first :=
    post_set_lines true w body (ack_events (acknowledged ts1) ++ post1) in
  let second :=
    post_set_lines true (final_world first) body
      (ack_events (acknowledged ts2) ++ post2) in
  sent first = [success_response]
  /\ sent second = [success_response]
  /\ final_world second = final_world first
  /\ (forall (w0 : world) (evs : list event),
        sent (post_set_lines true
                (final_world (post_set_lines true w0 body evs)) body
                (ack_events (acknowledged ts2) ++ post2))
        = [success_response]).
Proof.
  intros Hv Hp1 Hp2 first second.
  assert (Hok : forall ts post w1,
             Permutation ts all_tasks ->
             sent (post_set_lines true w1 body (ack_events (acknowledged ts) ++ post))
             = [success_response]).
  { intros ts post w1 Hp.
    rewrite (sent_after_callbacks w1 body (acknowledged ts) post Hv).
    - rewrite failures_acknowledged. reflexivity.
    - apply length_of_all_tasks. unfold acknowledged.
      rewrite map_map. cbn. rewrite map_id. exact Hp. }
  split; [apply Hok; exact Hp1|].
  split; [apply Hok; exact Hp2|].
  split; [|intros w0 evs; apply Hok; exact Hp2].
  unfold second, first. rewrite !(post_set_lines_started _ _ _ Hv).
  unfold final_world. cbn [fst snd].
  set (calls := publish_calls body).
  set (evs1 := ack_events (acknowledged ts1) ++ post1).
  set (evs2 := ack_events (acknowledged ts2) ++ post2).
  assert (Hall : forall ts post t, Permutation ts all_tasks ->
                 acked (ack_events (acknowledged ts) ++ post) t = true).
  { intros ts post t Hp. rewrite acked_app, acked_acknowledged; [reflexivity|].
    apply (Permutation_in _ (Permutation_sym Hp)), all_tasks_complete. }
  assert (Hk : forall k,
             retained (settle_all calls evs2 (settle_all calls evs1 w)) !! k
             = retained (settle_all calls evs1 w) !! k
             /\ currentConfig (settle_all calls evs2 (settle_all calls evs1 w)) !! k
                = currentConfig (settle_all calls evs1 w) !! k).
  { intros k.
    destruct (settle_all_lookup body evs2 (settle_all calls evs1 w) k) as [Hr Hc].
    destruct (settle_all_lookup body evs1 w k) as [Hr1 Hc1].
    cbn zeta in *. fold calls in Hr, Hc, Hr1, Hc1. rewrite Hr, Hc, Hr1, Hc1.
    destruct (topic_task k) as [t|]; auto.
    unfold evs1, evs2. rewrite !Hall by assumption. auto. }
  destruct (settle_all calls evs2 (settle_all calls evs1 w)) as [r2 c2] eqn:E2.
  destruct (settle_all calls evs1 w) as [r1 c1] eqn:E1.
  cbn [retained currentConfig] in Hk. f_equal; apply map_eq; intros k; apply Hk.
Qed.

End Broker.

(** ** Overlapping requests *)

Section Overlap.

Lemma answers_to_app (rid : nat) (m : gmap nat closure)
    (old : list (nat * response)) (rid' : nat) (out : list response) :
  answers_to rid {| inflight := m; answered := old ++ map (pair rid') out |}
  = answers_to rid {| inflight := m; answered := old |}
    ++ (if Nat.eqb rid' rid then out else []).
Proof.
  unfold answers_to. cbn [answered]. rewrite List.filter_app, map_app. f_equal.
  induction out as [|r out IH]; cbn [map List.filter fst].
  - destruct (Nat.eqb rid' rid); reflexivity.
  - destruct (Nat.eqb rid' rid) eqn:E; cbn [map snd]; [f_equal|]; exact IH.
Qed.

(** the closure and the responses of a request are those of its own
    events, however the events of other requests are interleaved *)
Lemma serve_all_own_events (rid : nat) (evs : list (nat * event)) (sv : server)
    (c : closure) :
  inflight sv !! rid = Some c ->
  inflight (serve_all evs sv) !! rid = Some (fst (react_all (events_of rid evs) c))
  /\ answers_to rid (serve_all evs sv)
     = answers_to rid sv ++ snd (react_all (events_of rid evs) c).
Proof.
  revert sv c. induction evs as [|[rid' e] evs IH]; intros sv c Hc.
  - cbn. rewrite app_nil_r. auto.
  - change (serve_all ((rid', e) :: evs) sv) with (serve_all evs (serve rid' e sv)).
    unfold events_of. cbn [List.filter fst snd]. fold (events_of rid evs).
    destruct (Nat.eqb rid' rid) eqn:E.
    + apply Nat.eqb_eq in E. subst rid'. cbn [map snd]. rewrite react_all_cons.
      cbn [fst snd].
      assert (Hs : serve rid e sv
                   = {| inflight := <[rid := fst (react e c)]> (inflight sv);
                        answered := answered sv ++ map (pair rid) (snd (react e c)) |}).
      { unfold serve. rewrite Hc. destruct (react e c). reflexivity. }
      destruct (IH (serve rid e sv) (fst (react e c))) as [IHc IHa].
      { rewrite Hs. cbn [inflight]. apply lookup_insert_eq. }
      rewrite IHc, IHa, Hs, answers_to_app, Nat.eqb_refl, app_assoc.
      destruct sv; auto.
    + assert (Hne : rid' <> rid) by (apply Nat.eqb_neq; exact E).
      destruct (IH (serve rid' e sv) c) as [IHc IHa].
      { unfold serve. destruct (inflight sv !! rid') as [c'|]; [|exact Hc].
        destruct (react e c'). cbn [inflight]. rewrite lookup_insert_ne; auto. }
      rewrite IHc, IHa. split; [reflexivity|]. f_equal.
      unfold serve. destruct (inflight sv !! rid') as [c'|]; [|reflexivity].
      destruct (react e c') as [c'' out]. rewrite answers_to_app, E, app_nil_r.
      destruct sv; reflexivity.
Qed.

Lemma react_all_acknowledged (ts : list task) (post : list event) :
  Permutation ts all_tasks ->
  snd (react_all (ack_events (acknowledged ts) ++ post) fresh_closure)
  = [success_response].
Proof.
  intros Hp.
  assert (Hlen : length (acknowledged ts) = totalTasks).
  { unfold acknowledged. rewrite length_map, (Permutation_length Hp). reflexivity. }
  rewrite react_all_app. cbn [snd].
  rewrite (react_acks_complete (acknowledged ts) fresh_closure);
    [|reflexivity | rewrite Hlen; unfold totalTasks; lia | cbn; exact Hlen].
  cbn [fst snd].
  match goal with
  | |- context [react_all post ?c] =>
      destruct (react_all_sent post c eq_refl) as [-> _]
  end.
  rewrite failures_acknowledged. reflexivity.
Qed.

(** X17. Two requests in flight at once, the events of each being its
    five publish callbacks without error followed by anything (its timer,
    late callbacks), and the events of the two interleaved in any way:
    each is answered exactly once, with the 200 success response, on its
    own bookkeeping. *)
Lemma overlapping_updates_both_succeed (evs : list (nat * event))
    (ts1 ts2 : list task) (post1 post2 : list event) :
  Permutation ts1 all_tasks ->
  Permutation ts2 all_tasks ->
  events_of 1 evs = ack_events (acknowledged ts1) ++ post1 ->
  events_of 2 evs = ack_events (acknowledged ts2) ++ post2 ->
  let sv := serve_all evs
              {| inflight := <[1%nat := fresh_closure]> {[ 2%nat := fresh_closure ]};
                 answered := [] |} in
  answers_to 1 sv = [success_response] /\ answers_to 2 sv = [success_response].
Proof.
  intros Hp1 Hp2 He1 He2 sv. unfold sv. split.
  - edestruct (serve_all_own_events 1 evs) as [_ Ha];
      [|rewrite Ha, He1, react_all_acknowledged by exact Hp1; reflexivity].
    cbn [inflight]. apply lookup_insert_eq.
  - edestruct (serve_all_own_events 2 evs) as [_ Ha];
      [|rewrite Ha, He2, react_all_acknowledged by exact Hp2; reflexivity].
    cbn [inflight]. rewrite lookup_insert_ne by discriminate.
    apply lookup_singleton_eq.
Qed.

End Overlap.

Section PartialFailure.
Context `{RT : Runtime}.

Lemma filter_Permutation_list {A : Type} (p : A -> bool) (l l' : list A) :
  Permutation l l' -> Permutation (List.filter p l) (List.filter p l').
Proof.
  induction 1 as [|x l l' _ IH|x y l|l l' l'' _ IH1 _ IH2]; cbn.
  - constructor.
  - destruct (p x); [constructor|]; exact IH.
  - destruct (p x), (p y); try reflexivity. constructor.
  - etransitivity; eassumption.
Qed.

Lemma failed_tasks_lap_fails (ts : list task) :
  failed_tasks (map lap_fails ts)
  = List.filter (fun t => bool_decide (t = TLap)) ts.
Proof.
  unfold failed_tasks. induction ts as [|t ts IH]; [reflexivity|].
  cbn. destruct (bool_decide (t = TLap)); cbn; rewrite IH; reflexivity.
Qed.

Lemma succeeded_lap_fails (ts : list task) :
  List.filter (fun a => negb (snd a)) (map lap_fails ts)
  = map lap_fails (List.filter (fun t => negb (bool_decide (t = TLap))) ts).
Proof.
  induction ts as [|t ts IH]; [reflexivity|].
  cbn. destruct (bool_decide (t = TLap)); cbn; rewrite IH; reflexivity.
Qed.

Lemma acked_lap_fails (ts : list task) (t : task) :
  In t ts -> t <> TLap -> acked (ack_events (map lap_fails ts)) t = true.
Proof.
  intros Hin Hne. unfold acked. apply existsb_exists.
  exists (PublishDone t false). split.
  - unfold ack_events. rewrite map_map. apply in_map_iff. exists t.
    split; [|exact Hin]. cbn. rewrite bool_decide_eq_false_2 by exact Hne. reflexivity.
  - apply bool_decide_eq_true_2. reflexivity.
Qed.

(** C2, amended. When exactly the [config/lap_line] publish fails and
    the other four succeed, all before the timer, the response is the
    HTTP 500 failure report whose details are the single entry
    "Failed Lap line."; the report has a message and the details and no
    other property, while the closure has counted 4 successes.  The
    handler issued its five publishes and nothing more, and the four
    acknowledged payloads are retained on their topics and held in
    [currentConfig]. *)
Theorem set_lines_lap_failure (w : world) (body : list (string * value))
    (ts : list task) (post : list event) :
  validate body = None ->
  Permutation ts all_tasks ->
  let acks := map lap_fails ts in
  let run := post_set_lines true w body (ack_events acks ++ post) in
  sent run = [failure_response ["Failed Lap line."]]
  /\ property_names (failure_response ["Failed Lap line."]) = ["message"; "details"]
  /\ details_of (failure_response ["Failed Lap line."]) = VArr [VStr "Failed Lap line."]
  /\ successes (fst (react_all (ack_events acks) fresh_closure)) = 4%nat
  /\ issued run = publish_calls body
  /\ (forall t, t <> TLap ->
        retained (final_world run) !! task_topic t = Some (payload_of body t)
        /\ currentConfig (final_world run) !! task_topic t = Some (payload_of body t)).
Proof.
  intros Hv Hp acks run.
  assert (Hfail : failed_tasks acks = [TLap]).
  { unfold acks. rewrite failed_tasks_lap_fails.
    apply Permutation_singleton_r.
    rewrite (filter_Permutation_list _ _ _ Hp). reflexivity. }
  assert (Hperm : Permutation (map fst acks) all_tasks).
  { unfold acks. rewrite map_map. cbn. rewrite map_id. exact Hp. }
  assert (Hlen : length acks = totalTasks) by exact (length_of_all_tasks _ Hperm).
  assert (Hsucc : length (List.filter (fun a => negb (snd a)) acks) = 4%nat).
  { unfold acks. rewrite succeeded_lap_fails, length_map.
    rewrite (Permutation_length (filter_Permutation_list _ _ _ Hp)). reflexivity. }
  split; [|split; [reflexivity|split; [reflexivity|split; [|split]]]].
  - unfold run. rewrite (sent_after_callbacks w body acks post Hv Hlen).
    unfold failures. rewrite Hfail. reflexivity.
  - rewrite (react_acks_complete acks fresh_closure);
      [|reflexivity | rewrite Hlen; unfold totalTasks; lia | cbn; exact Hlen].
    cbn [fst successes fresh_closure]. rewrite Hsucc. reflexivity.
  - unfold run. rewrite (post_set_lines_started _ _ _ Hv). reflexivity.
  - intros t Ht. unfold run. rewrite (post_set_lines_started _ _ _ Hv).
    unfold final_world. cbn [fst].
    destruct (settle_all_lookup body (ack_events acks ++ post) w (task_topic t))
      as [Hr Hc].
    cbn zeta in Hr, Hc. rewrite Hr, Hc, topic_task_topic, acked_app.
    unfold acks. rewrite acked_lap_fails; [auto | | exact Ht].
    apply (Permutation_in _ (Permutation_sym Hp)), all_tasks_complete.
Qed.

End PartialFailure.


(** C1 as stated fails when the timer fires first.  On a validated
    request, a lap-line callback that reports an error before the timer is
    answered with status 508, not 500; and five error-free callbacks that
    all run after the timer are answered with status 508, not 200. *)
Lemma set_lines_late_callbacks_counterexample :
  validate sample_body = None
  /\ In (PublishDone TLap true) late_error_trace
  /\ map status (sent (post_set_lines (RT := PlainText.runtime) true empty_world
                         sample_body late_error_trace)) = [508]
  /\ (forall t, In (PublishDone t false) late_success_trace)
  /\ map status (sent (post_set_lines (RT := PlainText.runtime) true empty_world
                         sample_body late_success_trace)) = [508].
Proof.
  split; [vm_compute; reflexivity|].
  split; [left; reflexivity|].
  split; [vm_compute; reflexivity|].
  split; [intros []; cbn; auto 10|].
  vm_compute. reflexivity.
Qed.

(** C2 as stated fails on the count of successes: in the partial-failure
    run the one response is the 500 report with a message and the details
    only, and no property of it holds the number 4. *)
Lemma set_lines_lap_failure_counterexample :
  let run := post_set_lines (RT := PlainText.runtime) true empty_world sample_body
               (ack_events (map lap_fails all_tasks)) in
  exists r, sent run = [r]
            /\ status r = 500
            /\ body r = VObj [("message", VStr "Error publishing some configuration parts.");
                              ("details", VArr [VStr "Failed Lap line."])]
            /\ ~ reports_count r 4.
Proof.
  eexists. split; [vm_compute; reflexivity|].
  split; [reflexivity|]. split; [reflexivity|].
  intros [k Hk]. cbn in Hk.
  destruct (String.eqb k "message"); [discriminate|].
  destruct (String.eqb k "details"); discriminate.
Qed.

(** ** Validation *)

Section Validation.

Lemma typeof_number (v : value) :
  String.eqb (typeof v) "number" = true <-> exists x, v = VNum x.
Proof.
  destruct v; cbn; split; try discriminate; try (intros [x Hx]; discriminate); eauto.
Qed.

Lemma isValidPoint_spec (p : value) : isValidPoint p = true <-> is_point p.
Proof.
  unfold isValidPoint, is_point. split.
  - intros H. apply andb_prop in H as [H H1]. apply andb_prop in H as [H H0].
    apply andb_prop in H as [Ha Hl].
    destruct p as [| | | | | |l|]; try discriminate.
    cbn in Hl. destruct l as [|a [|b [|c l]]]; try discriminate.
    cbn [elem nth] in H0, H1.
    apply typeof_number in H0 as [x ->]. apply typeof_number in H1 as [y ->].
    eauto.
  - intros (x & y & ->). reflexivity.
Qed.

Lemma line_checks (l : value) :
  (truthy l = true /\ not_two_points l = false
   /\ isValidPoint (elem l 0) = true /\ isValidPoint (elem l 1) = true)
  <-> is_line l.
Proof.
  unfold is_line. split.
  - intros (_ & Hn & H0 & H1). unfold not_two_points in Hn.
    apply orb_false_elim in Hn as [Ha Hl].
    destruct l as [| | | | | |l|]; try discriminate.
    cbn in Hl. destruct l as [|a [|b [|c l]]]; try discriminate.
    exists a, b. cbn in H0, H1. rewrite <- !isValidPoint_spec. auto.
  - intros (p1 & p2 & -> & Hp1 & Hp2). cbn.
    rewrite <- isValidPoint_spec in Hp1, Hp2. auto.
Qed.

Lemma totalLaps_checks (v : value) :
  is_undefined v || is_null v || negb (String.eqb (typeof v) "number")
  || lt_zero v || negb (isInteger v) = false
  <-> is_nonneg_integer v.
Proof.
  unfold is_nonneg_integer. split.
  - intros H. destruct v as [| | |[|[|]|q]| | | |]; try (cbn in H; discriminate).
    change (lt_zero (VNum (Finite q)) || negb (isInteger (VNum (Finite q))) = false)
      in H.
    apply orb_false_elim in H as [Hlt Hint]. cbn [lt_zero num_lt num_of_Z] in Hlt.
    cbn [isInteger Number_isInteger] in Hint.
    apply negb_false_iff, Pos.eqb_eq in Hint.
    exists q, (Qnum (Qred q)). split; [reflexivity|].
    assert (Hq : (q == inject_Z (Qnum (Qred q)))%Q).
    { rewrite <- (Qred_correct q) at 1. destruct (Qred q) as [n d]. cbn in *.
      subst d. reflexivity. }
    split; [exact Hq|].
    assert (Hnlt : ~ (q < inject_Z 0)%Q) by (rewrite <- Qltb_true_iff; congruence).
    apply Z.le_ngt. intros Hneg. apply Hnlt. rewrite Hq. rewrite <- Zlt_Qlt. lia.
  - intros (q & z & -> & Hq & Hz).
    change (lt_zero (VNum (Finite q)) || negb (isInteger (VNum (Finite q))) = false).
    cbn [lt_zero num_lt num_of_Z isInteger Number_isInteger].
    rewrite (Qltb_false_of_le q (inject_Z 0)) by (rewrite Hq; rewrite <- Zle_Qle; lia).
    rewrite (Qred_complete _ _ Hq), Qred_inject_Z. reflexivity.
Qed.

Lemma idealTime_checks (v : value) :
  v <> VNum NaN ->
  (is_undefined v || is_null v || negb (String.eqb (typeof v) "number")
   || lt_zero v = false
   <-> is_nonneg_number v).
Proof.
  intros Hnan. unfold is_nonneg_number. split.
  - intros H. destruct v as [| | |[|[|]|q]| | | |]; try discriminate; try contradiction.
    + left. reflexivity.
    + right. exists q. split; [reflexivity|].
      change (Qltb q (inject_Z 0) = false) in H.
      apply Qnot_lt_le. rewrite <- Qltb_true_iff. change 0%Q with (inject_Z 0). congruence.
  - intros [-> | (q & -> & Hq)]; [reflexivity|].
    change (Qltb q (inject_Z 0) = false).
    apply Qltb_false_of_le. exact Hq.
Qed.

Lemma validate_None_iff (body : list (string * value)) :
  validate body = None
  <-> (truthy (field body "start") = true
       /\ not_two_points (field body "start") = false
       /\ isValidPoint (elem (field body "start") 0) = true
       /\ isValidPoint (elem (field body "start") 1) = true)
      /\ (truthy (field body "finish") = true
          /\ not_two_points (field body "finish") = false
          /\ isValidPoint (elem (field body "finish") 0) = true
          /\ isValidPoint (elem (field body "finish") 1) = true)
      /\ (truthy (field body "lap") = true
          /\ not_two_points (field body "lap") = false
          /\ isValidPoint (elem (field body "lap") 0) = true
          /\ isValidPoint (elem (field body "lap") 1) = true)
      /\ is_undefined (field body "totalLaps") || is_null (field body "totalLaps")
         || negb (String.eqb (typeof (field body "totalLaps")) "number")
         || lt_zero (field body "totalLaps")
         || negb (isInteger (field body "totalLaps")) = false
      /\ is_undefined (field body "idealTime") || is_null (field body "idealTime")
         || negb (String.eqb (typeof (field body "idealTime")) "number")
         || lt_zero (field body "idealTime") = false.
Proof.
  unfold validate. cbn zeta.
  destruct (truthy (field body "start")), (truthy (field body "finish")),
    (truthy (field body "lap")); cbn [negb orb];
    try (split; [discriminate | intuition discriminate]).
  destruct (not_two_points (field body "start")),
    (not_two_points (field body "finish")),
    (not_two_points (field body "lap")); cbn [negb orb];
    try (split; [discriminate | intuition discriminate]).
  destruct (isValidPoint (elem (field body "start") 0)),
    (isValidPoint (elem (field body "start") 1)),
    (isValidPoint (elem (field body "finish") 0)),
    (isValidPoint (elem (field body "finish") 1)),
    (isValidPoint (elem (field body "lap") 0)),
    (isValidPoint (elem (field body "lap") 1)); cbn [negb orb];
    try (split; [discriminate | intuition discriminate]).
  destruct (is_undefined (field body "totalLaps") || is_null (field body "totalLaps")
            || negb (String.eqb (typeof (field body "totalLaps")) "number")
            || lt_zero (field body "totalLaps")
            || negb (isInteger (field body "totalLaps")));
    try (split; [discriminate | intuition discriminate]).
  destruct (is_undefined (field body "idealTime") || is_null (field body "idealTime")
            || negb (String.eqb (typeof (field body "idealTime")) "number")
            || lt_zero (field body "idealTime"));
    try (split; [discriminate | intuition discriminate]).
  intuition reflexivity.
Qed.

Lemma validate_None_lines (body : list (string * value)) :
  validate body = None ->
  is_line (field body "start") /\ is_line (field body "finish")
  /\ is_line (field body "lap").
Proof.
  rewrite validate_None_iff, !line_checks. tauto.
Qed.

Lemma validate_Some_status (body : list (string * value)) (r : response) :
  validate body = Some r -> status r = 400.
Proof.
  unfold validate. cbn zeta. intros Hr.
  repeat match type of Hr with
         | (if ?c then _ else _) = _ => destruct c
         end; inversion Hr; reflexivity.
Qed.

End Validation.

Section Rejection.
Context `{RT : Runtime}.


End Rejection.


(** ** Reading the configuration back *)

Section GetConfigFacts.
Context `{RT : Runtime}.

Lemma stored_eq (cfg cfg' : gmap string string) (k : string) :
  cfg' !! k = cfg !! k -> stored cfg' k = stored cfg k.
Proof. unfold stored. intros ->. reflexivity. Qed.

Lemma read_lines_eq (cfg cfg' : gmap string string) :
  (forall k, In k line_topics -> cfg' !! k = cfg !! k) ->
  read_lines cfg' = read_lines cfg.
Proof.
  intros H. unfold read_lines, read_line.
  rewrite !(stored_eq cfg cfg') by (apply H; cbn; auto).
  reflexivity.
Qed.

Lemma read_totalLaps_default (cfg : gmap string string) :
  read_totalLaps cfg = default_totalLaps (cfg !! MQTT_TOPIC_CONFIG_TOTAL_LAPS).
Proof.
  unfold read_totalLaps, stored, default_totalLaps.
  destruct (cfg !! MQTT_TOPIC_CONFIG_TOTAL_LAPS) as [text|]; [|reflexivity].
  destruct text as [|c text]; [reflexivity|].
  cbn [truthy String.eqb negb]. destruct (parseInt10 (String c text)); reflexivity.
Qed.

Lemma read_idealTime_default (cfg : gmap string string) :
  read_idealTime cfg = default_idealTime (cfg !! MQTT_TOPIC_IDEAL_TIME).
Proof.
  unfold read_idealTime, stored, default_idealTime.
  destruct (cfg !! MQTT_TOPIC_IDEAL_TIME) as [text|]; [|reflexivity].
  destruct text as [|c text]; [reflexivity|].
  cbn [truthy String.eqb negb]. destruct (parseFloat_str (String c text)); reflexivity.
Qed.

(** C5, amended. Whenever the three stored line payloads are absent or
    can be read, [GET /api/get-config] answers 200 with totalLaps the
    stored text parsed as a base-10 integer, 0 when absent or unparseable,
    and idealTime the stored text parsed as a float, 60 when absent or
    unparseable.  When a line payload cannot be read the answer is 500.
    Which of the two it is depends on the line topics only: the numeric
    topics never make the request fail. *)
Theorem get_config_numeric_defaults (cfg : gmap string string) :
  (is_Some (read_lines cfg) ->
   status (get_config cfg) = 200
   /\ answer_field (get_config cfg) "totalLaps"
      = VNum (default_totalLaps (cfg !! MQTT_TOPIC_CONFIG_TOTAL_LAPS))
   /\ answer_field (get_config cfg) "idealTime"
      = VNum (default_idealTime (cfg !! MQTT_TOPIC_IDEAL_TIME)))
  /\ (read_lines cfg = None -> status (get_config cfg) = 500)
  /\ (forall cfg' : gmap string string,
        (forall k, In k line_topics -> cfg' !! k = cfg !! k) ->
        status (get_config cfg') = status (get_config cfg)).
Proof.
  split; [|split].
  - intros [[[start finish] lap] Hl]. unfold answer_field, get_config. rewrite Hl.
    cbn [status body own_properties].
    rewrite read_totalLaps_default, read_idealTime_default. auto.
  - intros Hl. unfold get_config. rewrite Hl. reflexivity.
  - intros cfg' H. unfold get_config. rewrite (read_lines_eq cfg cfg' H).
    destruct (read_lines cfg) as [[[start finish] lap]|]; reflexivity.
Qed.

(** *** Line geometry through the wire *)

Lemma payload_of_line (body : list (string * value)) (t : task) :
  In t line_tasks -> payload_of body t = line_payload (field body (line_field t)).
Proof.
  intros [<- | [<- | [<- | []]]]; reflexivity.
Qed.

Lemma validate_None_line (body : list (string * value)) (t : task) :
  validate body = None -> In t line_tasks -> is_line (field body (line_field t)).
Proof.
  intros Hv Hin. destruct (validate_None_lines body Hv) as (Hs & Hf & Hl).
  destruct Hin as [<- | [<- | [<- | []]]]; assumption.
Qed.

(** the stored payload of a line, read as [GET /api/get-config] reads it *)
Lemma read_line_parsed (t : task) (line : value) (cfg : gmap string string)
    (a b c d : value) :
  JSON_stringify (line_object line) <> "" ->
  JSON_parse (JSON_stringify (line_object line))
  = Some (VObj [("p1", VArr [a; b]); ("p2", VArr [c; d])]) ->
  read_line (on_message (task_topic t) (line_payload line) cfg) (task_topic t)
  = Some (VArr [VArr [b; a]; VArr [d; c]]).
Proof.
  intros Hne Hp. unfold read_line, stored.
  rewrite on_message_config, lookup_insert_eq.
  unfold line_payload in *.
  destruct (JSON_stringify _) as [|ch text] eqn:E; [contradiction|].
  cbn [truthy String.eqb negb]. rewrite Hp. reflexivity.
Qed.

Lemma json_number_fixed (x : number) :
  json_number (VNum x) = VNum x <-> exists q, x = Finite q.
Proof.
  destruct x as [|negative|q]; cbn; split;
    try discriminate; try (intros [q' H]; discriminate H); eauto.
Qed.

(** C6, amended. For each line of a validated request, given as two
    [lat, lon] points, the payload published on the line's topic is the
    JSON text of [{p1: [lon, lat], p2: [lon, lat]}]; and where the runtime
    prints that object and parses it back as JSON does, reading the topic
    back as [GET /api/get-config] does returns the two [lat, lon] points
    with [null] in place of each coordinate that is not finite.  So the
    line read back is exactly the original if and only if its four
    coordinates are finite. *)
Theorem line_geometry_round_trip (body : list (string * value)) (t : task)
    (cfg : gmap string string) :
  validate body = None ->
  In t line_tasks ->
  json_faithful (field body (line_field t)) ->
  exists lat1 lon1 lat2 lon2 : number,
    field body (line_field t)
    = VArr [VArr [VNum lat1; VNum lon1]; VArr [VNum lat2; VNum lon2]]
    /\ call_of (publish_calls body) t
       = Some {| call_task := t; call_topic := task_topic t;
                 call_payload :=
                   JSON_stringify
                     (VObj [("p1", VArr [VNum lon1; VNum lat1]);
                            ("p2", VArr [VNum lon2; VNum lat2])]) |}
    /\ read_line (on_message (task_topic t) (payload_of body t) cfg) (task_topic t)
       = Some (json_line (field body (line_field t)))
    /\ (json_line (field body (line_field t)) = field body (line_field t)
        <-> finite_line (field body (line_field t))).
Proof.
  intros Hv Hin [Hne Hp].
  destruct (validate_None_line body t Hv Hin)
    as (p1 & p2 & Hline & (lat1 & lon1 & ->) & (lat2 & lon2 & ->)).
  exists lat1, lon1, lat2, lon2. split; [exact Hline|]. split; [|split].
  - rewrite call_of_publish_calls, (payload_of_line body t Hin). unfold line_payload.
    rewrite Hline. reflexivity.
  - rewrite (payload_of_line body t Hin). rewrite Hline in *.
    exact (read_line_parsed t _ cfg _ _ _ _ Hne Hp).
  - rewrite Hline. unfold json_line, json_point, finite_line. cbn [elem nth].
    split.
    + intros H. injection H as H1 H2 H3 H4.
      apply json_number_fixed in H1 as [q1 ->], H2 as [q2 ->],
        H3 as [q3 ->], H4 as [q4 ->].
      exists q1, q2, q3, q4. reflexivity.
    + intros (q1 & q2 & q3 & q4 & H). injection H as -> -> -> ->. reflexivity.
Qed.

Lemma read_line_stored (cfg : gmap string string) (topic : string) (line : value) :
  cfg !! topic = Some (line_payload line) ->
  is_line line ->
  round_trips (line_object line) ->
  read_line cfg topic = Some line.
Proof.
  intros Hcfg (p1 & p2 & -> & (a & b & ->) & (c & d & ->)) [Hne Hrt].
  unfold read_line, stored. rewrite Hcfg. unfold line_payload in *.
  destruct (JSON_stringify _) as [|ch text] eqn:E; [contradiction|].
  cbn [truthy String.eqb negb]. rewrite Hrt. reflexivity.
Qed.

(** a fully acknowledged update, read back: the three lines are the
    request's *)
Lemma get_config_after_set_lines (w : world) (req : list (string * value))
    (ts : list task) (post : list event) :
  validate req = None ->
  Permutation ts all_tasks ->
  (forall t, In t line_tasks -> round_trips (line_object (field req (line_field t)))) ->
  let run := post_set_lines true w req (ack_events (acknowledged ts) ++ post) in
  let answer := get_config (currentConfig (final_world run)) in
  status answer = 200
  /\ answer_field answer "start" = field req "start"
  /\ answer_field answer "finish" = field req "finish"
  /\ answer_field answer "lap" = field req "lap".
Proof.
  intros Hv Hp Hrt run answer.
  assert (Hline : forall t, In t line_tasks ->
            read_line (currentConfig (final_world run)) (task_topic t)
            = Some (field req (line_field t))).
  { intros t Hin. apply read_line_stored.
    - unfold run. rewrite (post_set_lines_started _ _ _ Hv). unfold final_world.
      cbn [fst].
      destruct (settle_all_lookup req (ack_events (acknowledged ts) ++ post) w
                  (task_topic t)) as [_ Hc].
      cbn zeta in Hc. rewrite Hc, topic_task_topic, acked_app, acked_acknowledged.
      + rewrite (payload_of_line req t Hin). reflexivity.
      + apply (Permutation_in _ (Permutation_sym Hp)), all_tasks_complete.
    - exact (validate_None_line req t Hv Hin).
    - exact (Hrt t Hin). }
  assert (Hall : read_lines (currentConfig (final_world run))
                 = Some (field req "start", field req "finish", field req "lap")).
  { unfold read_lines.
    change MQTT_TOPIC_CONFIG_START with (task_topic TStart).
    change MQTT_TOPIC_CONFIG_FINISH with (task_topic TFinish).
    change MQTT_TOPIC_CONFIG_LAP with (task_topic TLap).
    rewrite (Hline TStart), (Hline TFinish), (Hline TLap) by (cbn; auto).
    reflexivity. }
  unfold answer, answer_field, get_config. rewrite Hall. cbn. auto.
Qed.

End GetConfigFacts.

Section RelayFacts.
Context `{RT : Runtime}.

Lemma every_key_in_true (keys : list string) (payload : value) :
  every_key_in keys payload = Some true ->
  forall k, In k keys -> key_in k payload = Some true.
Proof.
  induction keys as [|k0 keys IH]; cbn [every_key_in]; intros H k Hin.
  - destruct Hin.
  - destruct (key_in k0 payload) as [[|]|] eqn:E; try discriminate.
    destruct Hin as [<- | Hin]; [exact E | exact (IH H k Hin)].
Qed.

(** C9. In the display relay, a [gps/status] message that is not valid
    JSON, or whose payload lacks one of the five required keys, leaves the
    relay's state as it was and emits nothing; and no message on any topic
    makes the handler throw. *)
Theorem relay_ignores_incomplete_status :
  (forall (st : relay) (message : string),
     (JSON_parse message = None
      \/ exists payload k,
           JSON_parse message = Some payload /\ In k requiredKeys
           /\ forall fs, payload = VObj fs -> own_prop k fs = None) ->
     relay_on_message MQTT_TOPIC_GPS message st = Some (st, []))
  /\ (forall (st : relay) (topic message : string),
        is_Some (relay_on_message topic message st)).
Proof.
  split.
  - intros st message [Hp | (payload & k & Hp & Hk & Hmiss)];
      unfold relay_on_message, relay_message_try; rewrite Hp; [reflexivity|].
    cbn [mbind option_bind]. change (String.eqb MQTT_TOPIC_GPS MQTT_TOPIC_GPS) with true.
    cbn iota.
    destruct (every_key_in requiredKeys payload) as [[|]|] eqn:E; try reflexivity.
    exfalso. pose proof (every_key_in_true _ _ E k Hk) as Hin.
    destruct payload as [| | | | | | |fs]; try discriminate.
    cbn in Hin. unfold has_key in Hin. rewrite (Hmiss fs eq_refl) in Hin. discriminate.
  - intros st topic message. unfold relay_on_message, try_catch.
    destruct (relay_message_try topic message st); eauto.
Qed.

End RelayFacts.

(** C5 as stated fails on a store whose start line is not JSON: the
    answer is the 500 report, which has a message and no totalLaps. *)
Lemma get_config_garbled_line_counterexample :
  status (get_config (RT := PlainText.runtime) garbled_config) = 500
  /\ property_names (get_config (RT := PlainText.runtime) garbled_config)
     = ["message"]
  /\ answer_field (get_config (RT := PlainText.runtime) garbled_config) "totalLaps"
     <> VNum (default_totalLaps (garbled_config !! MQTT_TOPIC_CONFIG_TOTAL_LAPS)).
Proof.
  split; [vm_compute; reflexivity|]. split; [vm_compute; reflexivity|].
  vm_compute. discriminate.
Qed.

(** C6 as stated fails on a line with a coordinate that is not finite:
    validation accepts it, the payload carries [null] in its place, and
    after the update has been acknowledged [GET /api/get-config] answers
    200 and returns the line with [null] for that latitude. *)
Lemma line_geometry_infinite_counterexample :
  validate far_body = None
  /\ payload_of (RT := PlainText.runtime) far_body TStart
     = "{" +:+ PlainText.quoted "p1" +:+ ":[6.1,null]," +:+ PlainText.quoted "p2"
       +:+ ":[6.1,49.601]}"
  /\ read_line (RT := PlainText.runtime)
       (on_message MQTT_TOPIC_CONFIG_START
          (payload_of (RT := PlainText.runtime) far_body TStart) initial_config)
       MQTT_TOPIC_CONFIG_START
     = Some (VArr [VArr [VNull; VNum (Finite (61 # 10))];
                   point (49601 # 1000) (61 # 10)])
  /\ (let run :=
        post_set_lines (RT := PlainText.runtime) true empty_world far_body
          (ack_events (acknowledged all_tasks)) in
      let answer :=
        get_config (RT := PlainText.runtime) (currentConfig (final_world run)) in
      sent run = [success_response]
      /\ status answer = 200
      /\ answer_field answer "start" <> field far_body "start").
Proof.
  split; [vm_compute; reflexivity|]. split; [vm_compute; reflexivity|].
  split; [vm_compute; reflexivity|].
  cbn zeta. split; [vm_compute; reflexivity|]. split; [vm_compute; reflexivity|].
  vm_compute. discriminate.
Qed.

(** * Further facts: the rest of the programs *)

(** ** Property lists *)

Lemma own_prop_app {A : Type} (k : string) (xs ys : list (string * A)) :
  own_prop k (xs ++ ys)
  = match own_prop k xs with
    | Some v => Some v
    | None => own_prop k ys
    end.
Proof.
  induction xs as [|[k' v] xs IH]; cbn [app own_prop]; [reflexivity|].
  destruct (String.eqb k k'); [reflexivity | exact IH].
Qed.

Lemma own_prop_assign {A : Type} (k k' : string) (v : A) (fs : list (string * A)) :
  own_prop k (assign k' v fs) = if String.eqb k k' then Some v else own_prop k fs.
Proof.
  induction fs as [|[k0 v0] fs IH]; cbn [assign own_prop]; [reflexivity|].
  destruct (String.eqb k' k0) eqn:E0; cbn [own_prop].
  - apply String.eqb_eq in E0. subst k0. destruct (String.eqb k k'); reflexivity.
  - rewrite IH. destruct (String.eqb k k0) eqn:E1; [|reflexivity].
    apply String.eqb_eq in E1. subst k0.
    rewrite String.eqb_sym, E0. reflexivity.
Qed.

(** [{...a, ...b}] holds for each key the last binding [b] has for it,
    and [a]'s where [b] has none *)
Lemma own_prop_spread {A : Type} (k : string) (a b : list (string * A)) :
  own_prop k (spread a b)
  = match own_prop k (rev b) with
    | Some v => Some v
    | None => own_prop k a
    end.
Proof.
  unfold spread. revert a. induction b as [|[k' v] b IH]; intros a; [reflexivity|].
  cbn [fold_left fst snd rev]. rewrite IH, own_prop_app, own_prop_assign.
  cbn [own_prop]. destruct (own_prop k (rev b)); [reflexivity|].
  destruct (String.eqb k k'); reflexivity.
Qed.

Lemma has_key_spread {A : Type} (k : string) (a b : list (string * A)) :
  has_key k a = true -> has_key k (spread a b) = true.
Proof.
  unfold has_key. rewrite own_prop_spread.
  destruct (own_prop k (rev b)); [reflexivity | auto].
Qed.

(** ** The configuration store under a stream of messages *)

Section StoreFacts.

Lemma on_message_lookup (t p : string) (cfg : gmap string string) (k : string) :
  on_message t p cfg !! k
  = if bool_decide (k ∈ configTopics) && String.eqb k t then Some p else cfg !! k.
Proof.
  unfold on_message. destruct (String.eqb k t) eqn:E.
  - apply String.eqb_eq in E. subst t.
    destruct (bool_decide (k ∈ configTopics)); cbn [andb]; [|reflexivity].
    apply lookup_insert_eq.
  - rewrite andb_false_r. apply String.eqb_neq in E.
    destruct (bool_decide (t ∈ configTopics)); [|reflexivity].
    apply lookup_insert_ne. congruence.
Qed.

(** X1. After any sequence of inbound messages, the store holds for each
    configuration topic the payload of the last message on that topic,
    or what it held before when there was none, and never gains an entry
    for any other topic; starting from the initial store it holds nothing
    outside the five configuration topics. *)
Theorem receive_all_last_writer_wins (msgs : list (string * string))
    (cfg : gmap string string) (k : string) :
  receive_all msgs cfg !! k
  = (if bool_decide (k ∈ configTopics)
     then match last_payload k msgs with
          | Some p => Some p
          | None => cfg !! k
          end
     else cfg !! k)
  /\ (k ∉ configTopics -> receive_all msgs initial_config !! k = None).
Proof.
  assert (H : forall cfg0 : gmap string string,
             receive_all msgs cfg0 !! k
             = (if bool_decide (k ∈ configTopics)
                then match last_payload k msgs with
                     | Some p => Some p
                     | None => cfg0 !! k
                     end
                else cfg0 !! k)).
  { unfold last_payload. induction msgs as [|[t p] msgs IH]; intros cfg0.
    - cbn. destruct (bool_decide (k ∈ configTopics)); reflexivity.
    - change (receive_all ((t, p) :: msgs) cfg0)
        with (receive_all msgs (on_message t p cfg0)).
      rewrite IH, on_message_lookup. cbn [rev]. rewrite own_prop_app.
      cbn [own_prop]. destruct (bool_decide (k ∈ configTopics)); cbn [andb];
        [|reflexivity].
      destruct (own_prop k (rev msgs)); [reflexivity|].
      destruct (String.eqb k t); reflexivity. }
  split; [apply H|].
  intros Hk. rewrite H, bool_decide_eq_false_2 by exact Hk. apply lookup_empty.
Qed.

End StoreFacts.

(** ** What makes GET /api/get-config fail *)

Section GetConfigMore.
Context `{RT : Runtime}.

Lemma prop_not_nullish (v : value) (k : string) :
  nullish v = false -> prop v k = Some (member v k).
Proof. destruct v; cbn; intros H; try discriminate; reflexivity. Qed.

Lemma prop_nullish (v : value) (k : string) : nullish v = true -> prop v k = None.
Proof. destruct v; cbn; intros H; try discriminate; reflexivity. Qed.

Lemma index_nullish (v : value) (i : nat) :
  index v i = None <-> nullish v = true.
Proof. destruct v; cbn; split; intros H; try discriminate; reflexivity. Qed.

Lemma index_not_nullish (v : value) (i : nat) :
  nullish v = false -> exists x, index v i = Some x.
Proof.
  intros H. destruct (index v i) as [x|] eqn:E; [eauto|].
  apply index_nullish in E. congruence.
Qed.

Lemma stored_Some (cfg : gmap string string) (topic text : string) :
  stored cfg topic = Some text <-> cfg !! topic = Some text /\ text <> "".
Proof.
  unfold stored. destruct (cfg !! topic) as [s|]; [|split; [discriminate | intros [? _]; discriminate]].
  destruct s as [|c s]; cbn [truthy String.eqb negb].
  - split; [discriminate | intros [H Hne]; injection H as <-; contradiction].
  - split; [intros H; injection H as <-; split; [reflexivity | discriminate]
           | intros [H _]; exact H].
Qed.

Lemma read_line_fails_iff (cfg : gmap string string) (topic : string) :
  read_line cfg topic = None
  <-> exists text, cfg !! topic = Some text /\ text <> "" /\ unreadable text.
Proof.
  unfold read_line. destruct (stored cfg topic) as [text|] eqn:Es.
  - apply stored_Some in Es as [Hc Hne].
    assert (Hiff : (data ← JSON_parse text;
                    p1 ← prop data "p1"; a ← index p1 1;
                    p1 ← prop data "p1"; b ← index p1 0;
                    p2 ← prop data "p2"; c ← index p2 1;
                    p2 ← prop data "p2"; d ← index p2 0;
                    Some (VArr [VArr [a; b]; VArr [c; d]])) = None
                   <-> unreadable text).
    { unfold unreadable. destruct (JSON_parse text) as [data|]; cbn [mbind option_bind].
      2:{ split; auto. }
      destruct (nullish data) eqn:Ed.
      { rewrite !(prop_nullish _ _ Ed). cbn. split; [eauto 6 | reflexivity]. }
      rewrite !(prop_not_nullish _ _ Ed). cbn [mbind option_bind].
      destruct (nullish (member data "p1")) eqn:E1.
      { rewrite (proj2 (index_nullish _ 1) E1). cbn. split; [eauto 8 | reflexivity]. }
      destruct (index_not_nullish _ 1%nat E1) as [a ->].
      destruct (index_not_nullish _ 0%nat E1) as [b ->]. cbn [mbind option_bind].
      destruct (nullish (member data "p2")) eqn:E2.
      { rewrite (proj2 (index_nullish _ 1) E2). cbn. split; [eauto 8 | reflexivity]. }
      destruct (index_not_nullish _ 1%nat E2) as [c ->].
      destruct (index_not_nullish _ 0%nat E2) as [d ->]. cbn [mbind option_bind].
      split; [discriminate|].
      intros [H | (data' & H & [H' | [H' | H']])]; [discriminate|..];
        injection H as <-; congruence. }
    rewrite Hiff. split.
    + intros Hu. exists text. auto.
    + intros (text' & Hc' & _ & Hu). congruence.
  - split; [discriminate|].
    intros (text & Hc & Hne & _).
    assert (stored cfg topic = Some text) by (apply stored_Some; auto). congruence.
Qed.

(** X2. [GET /api/get-config] answers 500 exactly when one of the three
    line topics holds a non-empty payload that is not JSON, or is JSON for
    [null], or for a value whose [p1] or [p2] is missing or [null]; in
    every other case it answers 200.  A [p1] or [p2] of any other shape
    does not make it fail. *)
Theorem get_config_fails_iff (cfg : gmap string string) :
  (status (get_config cfg) = 500
   <-> exists topic text,
         In topic line_topics /\ cfg !! topic = Some text /\ text <> ""
         /\ unreadable text)
  /\ (status (get_config cfg) = 500 \/ status (get_config cfg) = 200).
Proof.
  pose proof (read_line_fails_iff cfg MQTT_TOPIC_CONFIG_START) as Hs.
  pose proof (read_line_fails_iff cfg MQTT_TOPIC_CONFIG_FINISH) as Hf.
  pose proof (read_line_fails_iff cfg MQTT_TOPIC_CONFIG_LAP) as Hl.
  unfold get_config, read_lines.
  destruct (read_line cfg MQTT_TOPIC_CONFIG_START) as [start|].
  2:{ cbn. split; [|auto]. split; [intros _|reflexivity].
      destruct (proj1 Hs eq_refl) as (text & ? & ? & ?).
      exists MQTT_TOPIC_CONFIG_START, text. cbn. auto. }
  destruct (read_line cfg MQTT_TOPIC_CONFIG_FINISH) as [finish|].
  2:{ cbn. split; [|auto]. split; [intros _|reflexivity].
      destruct (proj1 Hf eq_refl) as (text & ? & ? & ?).
      exists MQTT_TOPIC_CONFIG_FINISH, text. cbn. auto. }
  destruct (read_line cfg MQTT_TOPIC_CONFIG_LAP) as [lap|].
  2:{ cbn. split; [|auto]. split; [intros _|reflexivity].
      destruct (proj1 Hl eq_refl) as (text & ? & ? & ?).
      exists MQTT_TOPIC_CONFIG_LAP, text. cbn. auto. }
  cbn. split; [|auto]. split; [discriminate|].
  intros (topic & text & Hin & Hc & Hne & Hu). exfalso.
  destruct Hin as [<- | [<- | [<- | []]]];
    [apply proj2 in Hs | apply proj2 in Hf | apply proj2 in Hl];
    match goal with H : _ -> Some _ = None |- _ =>
      assert (Some (A := value) VNull = None -> False) by discriminate;
      enough (E : exists t, cfg !! _ = Some t /\ t <> "" /\ unreadable t)
        by (specialize (H E); discriminate)
    end; eauto.
Qed.

(** the 500 answer carries the message alone *)
Lemma get_config_failure_body (cfg : gmap string string) :
  status (get_config cfg) = 500 -> property_names (get_config cfg) = ["message"].
Proof.
  unfold get_config. destruct (read_lines cfg) as [[[start finish] lap]|];
    [discriminate | reflexivity].
Qed.

Lemma parseInt10_cases (s : string) :
  parseInt10 s = NaN
  \/ (exists negative, parseInt10 s = Infinity negative)
  \/ exists z, parseInt10 s = num_of_Z z.
Proof.
  unfold parseInt10. destruct (take_sign (trim_start s)) as [neg s1].
  destruct (span_digits s1) as [[|c ds] rest]; [auto|]. cbn zeta.
  destruct (Z.leb overflow_at _); eauto.
Qed.

Lemma isInteger_num_of_Z (z : Z) : Number_isInteger (num_of_Z z) = true.
Proof. unfold Number_isInteger, num_of_Z. rewrite Qred_inject_Z. reflexivity. Qed.

Lemma read_totalLaps_whole (cfg : gmap string string) :
  isNaN (read_totalLaps cfg) = false
  /\ forall q, read_totalLaps cfg = Finite q ->
       Number_isInteger (read_totalLaps cfg) = true.
Proof.
  unfold read_totalLaps. destruct (stored cfg MQTT_TOPIC_CONFIG_TOTAL_LAPS) as [text|];
    [|split; [reflexivity | intros _ _; apply isInteger_num_of_Z]].
  destruct (parseInt10_cases text) as [-> | [[negative ->] | [z ->]]]; cbn [isNaN num_of_Z];
    (split; [reflexivity|]); intros q Hq; try discriminate; apply isInteger_num_of_Z.
Qed.

Lemma read_idealTime_number (cfg : gmap string string) :
  isNaN (read_idealTime cfg) = false.
Proof.
  unfold read_idealTime. destruct (stored cfg MQTT_TOPIC_IDEAL_TIME) as [text|];
    [|reflexivity].
  destruct (parseFloat_str text); reflexivity.
Qed.

(** X3. Whenever [GET /api/get-config] answers 200, totalLaps and
    idealTime are Numbers that are not NaN, and totalLaps, when it is
    finite, is an integer.  Neither is checked against the constraints of
    [POST /api/set-lines]: a stored lap count of "-3" is returned as -3, a
    stored ideal time of "-Infinity" as -Infinity, and a stored lap count
    of four hundred nines as Infinity. *)
Theorem get_config_numbers_are_numbers :
  (forall cfg : gmap string string,
     status (get_config cfg) = 500
     \/ (status (get_config cfg) = 200
         /\ exists n x : number,
              answer_field (get_config cfg) "totalLaps" = VNum n
              /\ isNaN n = false
              /\ (forall q, n = Finite q -> Number_isInteger n = true)
              /\ answer_field (get_config cfg) "idealTime" = VNum x
              /\ isNaN x = false))
  /\ (let cfg : gmap string string :=
        <[MQTT_TOPIC_CONFIG_TOTAL_LAPS := "-3"]>
          {[MQTT_TOPIC_IDEAL_TIME := "-Infinity"]} in
      status (get_config cfg) = 200
      /\ answer_field (get_config cfg) "totalLaps" = VNum (num_of_Z (-3))
      /\ answer_field (get_config cfg) "idealTime" = VNum (Infinity true))
  /\ (let cfg : gmap string string :=
        {[MQTT_TOPIC_CONFIG_TOTAL_LAPS := nines 400]} in
      status (get_config cfg) = 200
      /\ answer_field (get_config cfg) "totalLaps" = VNum (Infinity false)).
Proof.
  split; [|split].
  - intros cfg. unfold get_config, answer_field.
    destruct (read_lines cfg) as [[[start finish] lap]|]; [right | left; reflexivity].
    split; [reflexivity|].
    exists (read_totalLaps cfg), (read_idealTime cfg).
    cbn [body own_properties field own_prop String.eqb Ascii.eqb Bool.eqb default].
    destruct (read_totalLaps_whole cfg) as [Hn Hi].
    split; [reflexivity|]. split; [exact Hn|]. split; [exact Hi|].
    split; [reflexivity | apply read_idealTime_number].
  - cbn zeta. vm_compute. auto.
  - cbn zeta. vm_compute. auto.
Qed.

End GetConfigMore.

(** ** Requests that are refused or still waiting *)

Section SetLinesMore.
Context `{RT : Runtime}.


Lemma ack_events_app (xs ys : list (task * bool)) :
  ack_events (xs ++ ys) = ack_events xs ++ ack_events ys.
Proof. apply map_app. Qed.

(** X5. An accepted request whose timer has not fired is answered when
    the fifth publish callback has run and not before: with fewer
    callbacks nothing has been sent, even when some of them reported an
    error. *)
Theorem set_lines_waits_for_every_callback (w : world)
    (body : list (string * value)) (acks : list (task * bool)) :
  validate body = None ->
  (sent (post_set_lines true w body (ack_events acks)) = []
   <-> (length acks < totalTasks)%nat).
Proof.
  intros Hv. split.
  - intros Hs. destruct (Nat.lt_ge_cases (length acks) totalTasks) as [|Hge];
      [assumption | exfalso].
    rewrite <- (firstn_skipn totalTasks acks), ack_events_app in Hs.
    rewrite (sent_after_callbacks w body _ _ Hv) in Hs; [discriminate|].
    apply firstn_length_le. exact Hge.
  - intros Hlt. rewrite (post_set_lines_started _ _ _ Hv). unfold sent. cbn [fst snd].
    rewrite (react_acks_pending acks fresh_closure); [reflexivity | reflexivity|].
    cbn [fresh_closure successes errors length]. lia.
Qed.

End SetLinesMore.

(** ** Reading an acknowledged update back *)

Section ReadBack.
Context `{RT : Runtime}.

Lemma parseInt10_uint (d : Decimal.uint) :
  Z.of_uint d < overflow_at ->
  parseInt10 (NilZero.string_of_uint d) = num_of_Z (Z.of_uint d).
Proof.
  intros Hd.
  assert (H0 : 0 <= Z.of_uint d) by (unfold Z.of_uint; lia).
  revert Hd H0.
  destruct d as [|d|d|d|d|d|d|d|d|d|d]; [reflexivity|..]; intros Hd H0;
    unfold NilZero.string_of_uint;
    match goal with
    | |- parseInt10 (NilEmpty.string_of_uint ?u) = _ =>
        rewrite <- (digits_uint u) in Hd, H0 |- *; unfold parseInt10;
        assert (Ht : trim_start (NilEmpty.string_of_uint u)
                     = NilEmpty.string_of_uint u)
          by (cbn [NilEmpty.string_of_uint];
              destruct (NilEmpty.string_of_uint d) as [|b [|c r]]; reflexivity);
        rewrite Ht;
        assert (Hs : take_sign (NilEmpty.string_of_uint u)
                     = (false, NilEmpty.string_of_uint u)) by reflexivity;
        rewrite Hs, span_digits_uint
    end;
    cbn [NilEmpty.string_of_uint list_ascii_of_string signed] in *; cbn zeta;
    match goal with
    | |- (if Z.leb overflow_at (Z.abs ?z) then _ else _) = _ =>
        assert (Hle : Z.leb overflow_at (Z.abs z) = false) by (apply Z.leb_gt; lia);
        rewrite Hle; reflexivity
    end.
Qed.

Lemma parseInt10_Z_to_string (z : Z) :
  0 <= z < overflow_at -> parseInt10 (Z_to_string z) = num_of_Z z.
Proof.
  intros Hz. unfold Z_to_string.
  rewrite <- (DecimalZ.of_to z) at 2.
  assert (Hd : Z.of_int (Z.to_int z) < overflow_at)
    by (rewrite DecimalZ.of_to; lia).
  destruct z as [|p|p]; [reflexivity | | lia].
  cbn [Z.to_int NilZero.string_of_int Z.of_int] in *. apply parseInt10_uint.
  exact Hd.
Qed.

Lemma Z_to_string_nonempty (z : Z) : 0 <= z -> Z_to_string z <> "".
Proof.
  intros Hz. unfold Z_to_string. destruct z as [|p|p]; [discriminate | | lia].
  cbn [Z.to_int NilZero.string_of_int]. unfold NilZero.string_of_uint.
  destruct (Pos.to_uint p); discriminate.
Qed.

Lemma stored_nonempty (cfg : gmap string string) (topic text : string) :
  cfg !! topic = Some text -> text <> "" -> stored cfg topic = Some text.
Proof.
  intros Hc Hne. unfold stored. rewrite Hc. destruct text; [contradiction|reflexivity].
Qed.

(** X6. End to end: once a valid request has been published and
    acknowledged on all five topics, [GET /api/get-config] answers 200
    with the request's own start, finish, lap, totalLaps and idealTime,
    provided each line's payload survives a JSON round trip, the lap
    count is below 10^21 and [String(idealTime)] parses back to it.  A lap
    count or an ideal time of zero comes back as zero, not as the
    default. *)
Theorem get_config_returns_acknowledged_request (w : world)
    (req : list (string * value)) (ts : list task) (post : list event)
    (z : Z) (it : number) :
  validate req = None ->
  Permutation ts all_tasks ->
  (forall t, In t line_tasks -> round_trips (line_object (field req (line_field t)))) ->
  field req "totalLaps" = VNum (num_of_Z z) -> z < 10 ^ 21 ->
  field req "idealTime" = VNum it -> it <> NaN -> prints_back it ->
  let run := post_set_lines true w req (ack_events (acknowledged ts) ++ post) in
  let answer := get_config (currentConfig (final_world run)) in
  status answer = 200
  /\ forall k, In k ["start"; "finish"; "lap"; "totalLaps"; "idealTime"] ->
       answer_field answer k = field req k.
Proof.
  intros Hv Hp Hrt Hlaps Hz Hideal Hnan Hback run answer.
  destruct (get_config_after_set_lines w req ts post Hv Hp Hrt)
    as (Hst & Hs & Hf & Hl).
  fold run in Hst, Hs, Hf, Hl. fold answer in Hst, Hs, Hf, Hl.
  assert (Hz0 : 0 <= z).
  { apply validate_None_iff in Hv as (_ & _ & _ & Hc & _).
    apply totalLaps_checks in Hc as (q & z' & Hq & Heq & Hz').
    rewrite Hlaps in Hq. injection Hq as <-.
    unfold Qeq in Heq. cbn in Heq. lia. }
  assert (Hcfg : forall t, currentConfig (final_world run) !! task_topic t
                           = Some (payload_of req t)).
  { intros t. unfold run. rewrite (post_set_lines_started _ _ _ Hv).
    unfold final_world. cbn [fst].
    destruct (settle_all_lookup req (ack_events (acknowledged ts) ++ post) w
                (task_topic t)) as [_ Hc].
    cbn zeta in Hc. rewrite Hc, topic_task_topic, acked_app, acked_acknowledged;
      [reflexivity|].
    apply (Permutation_in _ (Permutation_sym Hp)), all_tasks_complete. }
  assert (Htl : read_totalLaps (currentConfig (final_world run)) = num_of_Z z).
  { unfold read_totalLaps.
    change MQTT_TOPIC_CONFIG_TOTAL_LAPS with (task_topic TTotalLaps).
    rewrite (stored_nonempty _ _ (Z_to_string z)).
    - rewrite (parseInt10_Z_to_string z); [reflexivity|].
      pose proof small_below_overflow. lia.
    - rewrite Hcfg. cbn [payload_of]. rewrite Hlaps. cbn [String_of ToString default].
      rewrite (Number_toString_small z) by lia. reflexivity.
    - apply Z_to_string_nonempty. exact Hz0. }
  assert (Hit : read_idealTime (currentConfig (final_world run)) = it).
  { unfold read_idealTime.
    change MQTT_TOPIC_IDEAL_TIME with (task_topic TIdealTime).
    rewrite (stored_nonempty _ _ (Number_toString it)).
    - cbn zeta. unfold prints_back in Hback. rewrite Hback.
      destruct it; [contradiction | reflexivity | reflexivity].
    - rewrite Hcfg. cbn [payload_of]. rewrite Hideal. reflexivity.
    - intros He. unfold prints_back in Hback. rewrite He in Hback.
      apply Hnan. rewrite <- Hback. reflexivity. }
  split; [exact Hst|].
  assert (Hok : status answer = 200 ->
                answer_field answer "totalLaps"
                = VNum (read_totalLaps (currentConfig (final_world run)))
                /\ answer_field answer "idealTime"
                   = VNum (read_idealTime (currentConfig (final_world run)))).
  { unfold answer, get_config, answer_field.
    destruct (read_lines _) as [[[s f] l]|]; [|discriminate]. intros _. cbn. auto. }
  destruct (Hok Hst) as [Ha Hb].
  intros k [<- | [<- | [<- | [<- | [<- | []]]]]]; try assumption.
  - rewrite Ha, Htl, Hlaps. reflexivity.
  - rewrite Hb, Hit, Hideal. reflexivity.
Qed.

End ReadBack.

(** ** Requests do not see each other *)

Section Isolation.

(** X7. The answers a request receives are decided by its own callbacks
    and timer alone: two event sequences that agree on the events of a
    request in flight give it the same answers, however the events of
    other requests differ or interleave; over any sequence it receives at
    most one further answer, and a request that is not in flight receives
    none. *)
Theorem answers_depend_on_own_events (rid : nat) (evs evs' : list (nat * event))
    (sv : server) :
  events_of rid evs = events_of rid evs' ->
  answers_to rid (serve_all evs sv) = answers_to rid (serve_all evs' sv)
  /\ (forall c, inflight sv !! rid = Some c ->
        exists out, answers_to rid (serve_all evs sv) = answers_to rid sv ++ out
                    /\ (length out <= 1)%nat)
  /\ (inflight sv !! rid = None ->
      answers_to rid (serve_all evs sv) = answers_to rid sv).
Proof.
  intros He.
  assert (Hnone : forall l sv0, inflight sv0 !! rid = None ->
            inflight (serve_all l sv0) !! rid = None
            /\ answers_to rid (serve_all l sv0) = answers_to rid sv0).
  { induction l as [|[rid' e] l IH]; intros sv0 Hn; [auto|].
    change (serve_all ((rid', e) :: l) sv0) with (serve_all l (serve rid' e sv0)).
    assert (Hs : inflight (serve rid' e sv0) !! rid = None
                 /\ answers_to rid (serve rid' e sv0) = answers_to rid sv0).
    { unfold serve. destruct (inflight sv0 !! rid') as [c'|] eqn:E; [|auto].
      destruct (react e c') as [c'' out]. cbn [inflight].
      assert (rid' <> rid) by congruence.
      rewrite lookup_insert_ne by assumption. split; [exact Hn|].
      rewrite answers_to_app.
      destruct (Nat.eqb rid' rid) eqn:E'; [apply Nat.eqb_eq in E'; contradiction|].
      rewrite app_nil_r. destruct sv0; reflexivity. }
    destruct Hs as [Hs1 Hs2]. destruct (IH _ Hs1) as [H1 H2].
    split; [exact H1 | congruence]. }
  split; [|split].
  - destruct (inflight sv !! rid) as [c|] eqn:Hc.
    + destruct (serve_all_own_events rid evs sv c Hc) as [_ ->].
      destruct (serve_all_own_events rid evs' sv c Hc) as [_ ->].
      rewrite He. reflexivity.
    + destruct (Hnone evs sv Hc) as [_ ->]. destruct (Hnone evs' sv Hc) as [_ ->].
      reflexivity.
  - intros c Hc. destruct (serve_all_own_events rid evs sv c Hc) as [_ ->].
    eexists. split; [reflexivity|]. apply react_all_at_most_one.
  - intros Hn. apply Hnone. exact Hn.
Qed.

End Isolation.

(** ** The relay *)

Section RelayMore.
Context `{RT : Runtime}.

(** the three ways a message can go *)
Lemma relay_on_message_cases (topic message : string) (st : relay) :
  relay_on_message topic message st = Some (st, [])
  \/ (topic = MQTT_TOPIC_GPS
      /\ exists payload,
           JSON_parse message = Some payload
           /\ every_key_in requiredKeys payload = Some true
           /\ let st' := {| raceData := spread (raceData st) (own_properties payload);
                            speedData := speedData st;
                            mqttConnected := mqttConnected st |} in
              relay_on_message topic message st = Some (st', [race_update st']))
  \/ (topic = MQTT_TOPIC_SPEED
      /\ exists fs,
           JSON_parse message = Some (VObj fs)
           /\ has_key "speed_kmh" fs = true
           /\ let st' := {| raceData := raceData st;
                            speedData := spread (speedData st)
                                           [("speed_kmh", field fs "speed_kmh")];
                            mqttConnected := mqttConnected st |} in
              relay_on_message topic message st = Some (st', [speed_update st'])).
Proof.
  unfold relay_on_message, relay_message_try.
  destruct (JSON_parse message) as [payload|] eqn:Hp; [|left; reflexivity].
  cbn [mbind option_bind].
  destruct (String.eqb topic MQTT_TOPIC_GPS) eqn:Eg.
  - apply String.eqb_eq in Eg.
    destruct (every_key_in requiredKeys payload) as [[|]|] eqn:E;
      [|left; reflexivity..].
    right; left. split; [exact Eg|]. exists payload.
    split; [reflexivity|]. split; [exact E|]. reflexivity.
  - destruct (String.eqb topic MQTT_TOPIC_SPEED) eqn:Es; [|left; reflexivity].
    apply String.eqb_eq in Es.
    destruct (key_in "speed_kmh" payload) as [[|]|] eqn:E; [|left; reflexivity..].
    destruct payload as [| | | | | | |fs]; try discriminate.
    right; right. split; [exact Es|]. exists fs. cbn in E.
    split; [reflexivity|]. split; [congruence|]. reflexivity.
Qed.

(** X8. A message changes nothing but the slice of its own topic: the
    connection flag is never touched, [raceData] changes only on
    [gps/status] and [speedData] only on [car/speed]; and the handler
    emits either nothing, leaving the state as it was, or exactly one
    event, [race_update] or [speed_update], carrying the whole new
    slice. *)
Theorem relay_message_frame (topic message : string) (st : relay) :
  exists st' out,
    relay_on_message topic message st = Some (st', out)
    /\ mqttConnected st' = mqttConnected st
    /\ (topic <> MQTT_TOPIC_GPS -> raceData st' = raceData st)
    /\ (topic <> MQTT_TOPIC_SPEED -> speedData st' = speedData st)
    /\ (out = [] /\ st' = st
        \/ out = [race_update st'] /\ topic = MQTT_TOPIC_GPS
        \/ out = [speed_update st'] /\ topic = MQTT_TOPIC_SPEED).
Proof.
  destruct (relay_on_message_cases topic message st)
    as [H | [[Ht (payload & _ & _ & H)] | [Ht (fs & _ & _ & H)]]];
    cbn zeta in H; rewrite H; eexists; eexists; (split; [reflexivity|]);
    cbn [mqttConnected raceData speedData]; subst; repeat split; auto;
    try (intros Hne; exfalso; apply Hne; reflexivity).
  all: intros; discriminate.
Qed.

Lemma relay_step_cases (e : relay_event) (st : relay) :
  exists st' out, relay_step e st = Some (st', out)
    /\ (relay_keys st -> relay_keys st')
    /\ (out = []
        \/ out = [race_update st'] /\ speedData st' = speedData st
           /\ mqttConnected st' = mqttConnected st
        \/ out = [speed_update st'] /\ raceData st' = raceData st
           /\ mqttConnected st' = mqttConnected st
        \/ out = [mqtt_status (mqttConnected st')] /\ raceData st' = raceData st
           /\ speedData st' = speedData st)
    /\ (out = [] -> st' = st).
Proof.
  assert (Hc : forall b, exists st' out, Some (relay_set_connected b st) = Some (st', out)
    /\ (relay_keys st -> relay_keys st')
    /\ (out = []
        \/ out = [race_update st'] /\ speedData st' = speedData st
           /\ mqttConnected st' = mqttConnected st
        \/ out = [speed_update st'] /\ raceData st' = raceData st
           /\ mqttConnected st' = mqttConnected st
        \/ out = [mqtt_status (mqttConnected st')] /\ raceData st' = raceData st
           /\ speedData st' = speedData st)
    /\ (out = [] -> st' = st)).
  { intros b. unfold relay_set_connected. eexists; eexists. split; [reflexivity|].
    cbn [mqttConnected raceData speedData].
    split; [|split].
    - intros [H1 H2]. split; assumption.
    - right; right; right. auto.
    - discriminate. }
  destruct e as [| | | | |topic message]; cbn [relay_step]; try apply Hc.
  destruct (relay_on_message_cases topic message st)
    as [H | [[Ht (payload & _ & _ & H)] | [Ht (fs & _ & Hk & H)]]];
    cbn zeta in H; rewrite H; eexists; eexists; (split; [reflexivity|]);
    cbn [mqttConnected raceData speedData]; (split; [|split]).
  - auto.
  - auto.
  - auto.
  - intros [H1 H2]. split; [|exact H2]. intros k Hin. cbn [raceData].
    apply has_key_spread, H1, Hin.
  - right; left. auto.
  - discriminate.
  - intros [H1 H2]. split; [exact H1|]. cbn [speedData].
    apply has_key_spread, H2.
  - right; right; left. auto.
  - discriminate.
Qed.

(** X9. No sequence of client events and messages makes a handler of the
    relay throw, and from the initial state the relay's [raceData] always
    has the five required keys and its [speedData] has [speed_kmh]; so
    every [race_update] and [speed_update] it emits carries them. *)
Theorem relay_keeps_required_keys (evs : list relay_event) :
  exists st out,
    relay_run evs initial_relay = Some (st, out)
    /\ (forall k, In k requiredKeys -> has_key k (raceData st) = true)
    /\ has_key "speed_kmh" (speedData st) = true
    /\ (forall em, In em out ->
          (emit_name em = "race_update" ->
           forall k, In k requiredKeys -> has_key k (own_properties (emit_data em)) = true)
          /\ (emit_name em = "speed_update" ->
              has_key "speed_kmh" (own_properties (emit_data em)) = true)).
Proof.
  assert (H : forall st0, relay_keys st0 ->
    exists st out, relay_run evs st0 = Some (st, out) /\ relay_keys st
      /\ (forall em, In em out ->
          (emit_name em = "race_update" ->
           forall k, In k requiredKeys -> has_key k (own_properties (emit_data em)) = true)
          /\ (emit_name em = "speed_update" ->
              has_key "speed_kmh" (own_properties (emit_data em)) = true))).
  { induction evs as [|e evs IH]; intros st0 Hk.
    - exists st0, []. split; [reflexivity|]. split; [exact Hk|]. intros em [].
    - destruct (relay_step_cases e st0) as (st1 & out1 & Hs & Hk1 & Hout & _).
      specialize (Hk1 Hk). destruct (IH st1 Hk1) as (st2 & out2 & Hr & Hk2 & Hem).
      exists st2, (out1 ++ out2). cbn [relay_run]. rewrite Hs, Hr.
      split; [reflexivity|]. split; [exact Hk2|].
      intros em Hin. apply in_app_or in Hin as [Hin | Hin]; [|exact (Hem em Hin)].
      destruct Hk1 as [Hr1 Hs1].
      destruct Hout as [-> | [[-> _] | [[-> _] | [-> _]]]]; [destruct Hin|..];
        destruct Hin as [<- | []]; cbn [emit_name emit_data own_properties race_update
                                         speed_update mqtt_status];
        split; try discriminate; auto. }
  destruct (H initial_relay) as (st & out & Hr & [Hk1 Hk2] & Hem).
  - split; [|reflexivity]. intros k Hin. cbn in Hin.
    destruct Hin as [<- | [<- | [<- | [<- | [<- | []]]]]]; reflexivity.
  - exists st, out. auto.
Qed.

(** X10. A [gps/status] message with all five required keys is merged
    into [raceData] key by key: each key the payload has takes the
    payload's value (its last binding), every other key keeps its value,
    so keys beyond the required five are taken over as well; the merged
    object is emitted as one [race_update], and [speedData] and
    [mqttConnected] stay as they were. *)
Theorem relay_merges_status (message : string) (fs : list (string * value))
    (st : relay) :
  JSON_parse message = Some (VObj fs) ->
  (forall k, In k requiredKeys -> has_key k fs = true) ->
  exists st',
    relay_on_message MQTT_TOPIC_GPS message st = Some (st', [race_update st'])
    /\ (forall k, own_prop k (raceData st')
                  = match own_prop k (rev fs) with
                    | Some v => Some v
                    | None => own_prop k (raceData st)
                    end)
    /\ speedData st' = speedData st
    /\ mqttConnected st' = mqttConnected st.
Proof.
  intros Hp Hk.
  assert (He : every_key_in requiredKeys (VObj fs) = Some true).
  { unfold requiredKeys in *. cbn [every_key_in key_in].
    rewrite !Hk by (cbn; auto 10). reflexivity. }
  exists {| raceData := spread (raceData st) fs; speedData := speedData st;
            mqttConnected := mqttConnected st |}.
  split.
  - unfold relay_on_message, relay_message_try. rewrite Hp. cbn [mbind option_bind].
    change (String.eqb MQTT_TOPIC_GPS MQTT_TOPIC_GPS) with true. cbn iota.
    rewrite He. reflexivity.
  - cbn [raceData speedData mqttConnected own_properties]. repeat split.
    intros k. apply own_prop_spread.
Qed.

(** X11. A [car/speed] message whose payload has [speed_kmh] replaces
    that one property of [speedData] with the payload's value, whatever
    its type; no other property of the payload is taken over, [raceData]
    and [mqttConnected] stay as they were, and the new [speedData] is
    emitted as one [speed_update]. *)
Theorem relay_takes_speed_only (message : string) (fs : list (string * value))
    (st : relay) :
  JSON_parse message = Some (VObj fs) ->
  has_key "speed_kmh" fs = true ->
  exists st',
    relay_on_message MQTT_TOPIC_SPEED message st = Some (st', [speed_update st'])
    /\ own_prop "speed_kmh" (speedData st') = own_prop "speed_kmh" fs
    /\ (forall k, k <> "speed_kmh" ->
          own_prop k (speedData st') = own_prop k (speedData st))
    /\ raceData st' = raceData st
    /\ mqttConnected st' = mqttConnected st.
Proof.
  intros Hp Hk.
  exists {| raceData := raceData st;
            speedData := spread (speedData st) [("speed_kmh", field fs "speed_kmh")];
            mqttConnected := mqttConnected st |}.
  split.
  - unfold relay_on_message, relay_message_try. rewrite Hp. cbn [mbind option_bind].
    change (String.eqb MQTT_TOPIC_SPEED MQTT_TOPIC_GPS) with false.
    change (String.eqb MQTT_TOPIC_SPEED MQTT_TOPIC_SPEED) with true. cbn iota.
    cbn [key_in prop]. rewrite Hk. cbn [mbind option_bind]. reflexivity.
  - cbn [raceData speedData mqttConnected]. repeat split.
    + rewrite own_prop_spread. cbn [rev app own_prop]. rewrite String.eqb_refl.
      unfold has_key in Hk. unfold field.
      destruct (own_prop "speed_kmh" fs); [reflexivity|discriminate].
    + intros k Hne. rewrite own_prop_spread. cbn [rev app own_prop].
      apply String.eqb_neq in Hne. rewrite Hne. reflexivity.
Qed.

(** ** The browser follows the relay *)




End RelayMore.

(** ** The needle of the tachometer *)

Lemma Qltb_false_le (a b : Q) : Qltb a b = false -> (b <= a)%Q.
Proof.
  intros H. destruct (Qlt_le_dec a b) as [Hlt | Hle]; [|exact Hle].
  apply Qltb_true_iff in Hlt. congruence.
Qed.

Lemma num_le_finite (a b : Q) : num_le (Finite a) (Finite b) = true <-> (a <= b)%Q.
Proof.
  unfold num_le. cbn [isNaN negb andb num_lt]. split.
  - intros H. apply negb_true_iff in H. apply Qltb_false_le. exact H.
  - intros H. apply negb_true_iff. apply Qltb_false_of_le. exact H.
Qed.

(** the angle for a finite speed, up to the representation of the result *)
Lemma needleAngle_finite (q : Q) :
  exists e : Q,
    needleAngle (Finite q) = Some (Finite (Qred e))
    /\ ((q <= 50)%Q -> (e == 180 - (9 # 5) * q)%Q)
    /\ ((50 <= q)%Q -> (e == 90)%Q).
Proof.
  unfold needleAngle. change (Qle_bool maxSpeed 0) with false. cbn iota zeta.
  unfold Math_min, maxSpeed, startAngleDeg, endAngleDeg.
  destruct (Qltb 50 q) eqn:E.
  - apply Qltb_true_iff in E. eexists. split; [reflexivity|].
    assert (Ha : (180 - Qred ((180 - 90) * Qred (50 / 50)) == 90)%Q)
      by (vm_compute; reflexivity).
    rewrite Ha. split; intros; [lra | reflexivity].
  - apply Qltb_false_le in E. eexists. split; [reflexivity|].
    assert (Ha : (180 - Qred ((180 - 90) * Qred (q / 50)) == 180 - (9 # 5) * q)%Q).
    { rewrite !Qred_correct. field. }
    rewrite Ha. split; intros; [reflexivity | lra].
Qed.

(** X13. The needle stays on the scale at its upper end and follows the
    speed: for every speed that is not NaN the angle is at least 90
    degrees, and exactly 90, the end of the scale, from 50 km/h on; a
    speed of at least 0 gives at most 180 degrees, and a speed of at most
    0 at least 180, the start of the scale not being guarded; a larger
    speed never gives a larger angle.  NaN gives NaN.  In the order of
    the Numbers, under which each of these survives the rounding of the
    three operations. *)
Theorem needleAngle_on_scale (x : number) :
  exists y : number,
    needleAngle x = Some y
    /\ isNaN y = isNaN x
    /\ (isNaN x = false -> num_le (Finite 90) y = true)
    /\ (num_le (Finite 50) x = true -> y = Finite 90)
    /\ (num_le (Finite 0) x = true -> num_le y (Finite 180) = true)
    /\ (num_le x (Finite 0) = true -> num_le (Finite 180) y = true)
    /\ (forall x' y' : number,
          num_le x x' = true -> needleAngle x' = Some y' -> num_le y' y = true).
Proof.
  destruct x as [|[|]|q].
  - exists NaN. split; [reflexivity|]. split; [reflexivity|].
    repeat split; discriminate.
  - exists (Infinity false). split; [reflexivity|]. split; [reflexivity|].
    split; [reflexivity|]. split; [discriminate|]. split; [discriminate|].
    split; [reflexivity|].
    intros x' y' Hle Hy'. destruct x' as [|[|]|q']; try discriminate Hle.
    + injection Hy' as <-. reflexivity.
    + injection Hy' as <-. reflexivity.
    + destruct (needleAngle_finite q') as (e' & He' & _). rewrite He' in Hy'.
      injection Hy' as <-. reflexivity.
  - exists (Finite 90). split; [reflexivity|]. split; [reflexivity|].
    split; [reflexivity|]. split; [reflexivity|]. split; [reflexivity|].
    split; [discriminate|].
    intros x' y' Hle Hy'. destruct x' as [|[|]|q']; try discriminate Hle.
    injection Hy' as <-. reflexivity.
  - destruct (needleAngle_finite q) as (e & He & Hlow & Hhigh).
    exists (Finite (Qred e)). split; [exact He|]. split; [reflexivity|].
    assert (Hcases : (q <= 50)%Q \/ (50 <= q)%Q)
      by (destruct (Qlt_le_dec q 50); [left; apply Qlt_le_weak|right]; assumption).
    split; [|split; [|split; [|split]]].
    + intros _. apply num_le_finite. rewrite Qred_correct.
      destruct Hcases as [H | H]; [rewrite (Hlow H) | rewrite (Hhigh H)]; lra.
    + intros H. apply num_le_finite in H. f_equal.
      change 90%Q with (Qred 90). apply Qred_complete. exact (Hhigh H).
    + intros H. apply num_le_finite in H. apply num_le_finite. rewrite Qred_correct.
      destruct Hcases as [H' | H']; [rewrite (Hlow H') | rewrite (Hhigh H')]; lra.
    + intros H. apply num_le_finite in H. apply num_le_finite. rewrite Qred_correct.
      rewrite (Hlow ltac:(lra)). lra.
    + intros x' y' Hle Hy'. destruct x' as [|[|]|q']; try discriminate Hle.
      * assert (Hinf : needleAngle (Infinity false) = Some (Finite 90)) by reflexivity.
        rewrite Hinf in Hy'. injection Hy' as <-.
        apply num_le_finite. rewrite Qred_correct.
        destruct Hcases as [H' | H']; [rewrite (Hlow H') | rewrite (Hhigh H')]; lra.
      * apply num_le_finite in Hle.
        destruct (needleAngle_finite q') as (e' & He' & Hlow' & Hhigh').
        rewrite He' in Hy'. injection Hy' as <-.
        apply num_le_finite. rewrite !Qred_correct.
        destruct Hcases as [H | H];
          destruct (Qlt_le_dec q' 50) as [H' | H'];
          try apply Qlt_le_weak in H';
          rewrite ?(Hlow H), ?(Hhigh H), ?(Hlow' H'), ?(Hhigh' H'); lra.
Qed.

(** ** The editor's save button against the server's validation *)

Section SaveRequest.



End SaveRequest.

Section SaveClickFacts.
Context `{RT : Runtime}.







End SaveClickFacts.

(** ** Which validation message a request gets *)

Section Messages.

(** X15. A rejected request is told the first check it fails, in the
    order lines, lap count, ideal time: one of the three line messages
    exactly when its lines are not well formed, whatever its numbers are;
    the lap-count message when the lines are well formed and totalLaps is
    not a non-negative integer; the ideal-time message only when lines
    and lap count are both fine.  The answer is 400 and carries the
    message alone. *)
Theorem validate_reports_first_failure (req : list (string * value)) (r : response) :
  validate req = Some r ->
  status r = 400
  /\ exists text,
       body r = VObj [("message", VStr text)]
       /\ (In text [missing_lines_text; line_format_text; point_format_text]
           /\ ~ lines_well_formed req
           \/ text = total_laps_text /\ lines_well_formed req
              /\ ~ is_nonneg_integer (field req "totalLaps")
           \/ text = ideal_time_text /\ lines_well_formed req
              /\ is_nonneg_integer (field req "totalLaps")
              /\ ~ is_nonneg_number (field req "idealTime"))
       /\ (text = missing_lines_text
           <-> truthy (field req "start") = false \/ truthy (field req "finish") = false
               \/ truthy (field req "lap") = false).
Proof.
  intros H. split; [exact (validate_Some_status _ _ H)|].
  unfold validate in H. cbn zeta in H.
  destruct (negb (truthy (field req "start")) || negb (truthy (field req "finish"))
            || negb (truthy (field req "lap"))) eqn:E1.
  { injection H as <-. eexists. split; [reflexivity|]. split.
    - left. split; [cbn; auto|]. intros (Hs & Hf & Hl).
      apply line_checks in Hs as (Hs & _), Hf as (Hf & _), Hl as (Hl & _).
      rewrite Hs, Hf, Hl in E1. discriminate.
    - split; [intros _|reflexivity].
      destruct (truthy (field req "start")); [|auto].
      destruct (truthy (field req "finish")); [|auto].
      destruct (truthy (field req "lap")); [discriminate|auto]. }
  assert (Ht : ~ (truthy (field req "start") = false \/ truthy (field req "finish") = false
                  \/ truthy (field req "lap") = false)).
  { intros [Hx | [Hx | Hx]]; rewrite Hx in E1; cbn in E1;
      rewrite ?orb_true_r in E1; discriminate. }
  destruct (not_two_points (field req "start") || not_two_points (field req "finish")
            || not_two_points (field req "lap")) eqn:E2.
  { injection H as <-. eexists. split; [reflexivity|]. split.
    - left. split; [cbn; auto|]. intros (Hs & Hf & Hl).
      apply line_checks in Hs as (_ & Hs & _), Hf as (_ & Hf & _), Hl as (_ & Hl & _).
      rewrite Hs, Hf, Hl in E2. discriminate.
    - split; [discriminate | intros Hx; contradiction]. }
  destruct (negb (isValidPoint (elem (field req "start") 0))
            || negb (isValidPoint (elem (field req "start") 1))
            || negb (isValidPoint (elem (field req "finish") 0))
            || negb (isValidPoint (elem (field req "finish") 1))
            || negb (isValidPoint (elem (field req "lap") 0))
            || negb (isValidPoint (elem (field req "lap") 1))) eqn:E3.
  { injection H as <-. eexists. split; [reflexivity|]. split.
    - left. split; [cbn; auto|]. intros (Hs & Hf & Hl).
      apply line_checks in Hs as (_ & _ & Hs0 & Hs1), Hf as (_ & _ & Hf0 & Hf1),
        Hl as (_ & _ & Hl0 & Hl1).
      rewrite Hs0, Hs1, Hf0, Hf1, Hl0, Hl1 in E3. discriminate.
    - split; [discriminate | intros Hx; contradiction]. }
  assert (Hlines : lines_well_formed req).
  { unfold lines_well_formed. rewrite <- !line_checks.
    repeat rewrite orb_false_iff in E1. repeat rewrite orb_false_iff in E2.
    repeat rewrite orb_false_iff in E3. repeat rewrite negb_false_iff in E1.
    repeat rewrite negb_false_iff in E3. tauto. }
  destruct (is_undefined (field req "totalLaps") || is_null (field req "totalLaps")
            || negb (String.eqb (typeof (field req "totalLaps")) "number")
            || lt_zero (field req "totalLaps")
            || negb (isInteger (field req "totalLaps"))) eqn:E4.
  { injection H as <-. eexists. split; [reflexivity|]. split.
    - right; left. split; [reflexivity|]. split; [exact Hlines|].
      intros Hn. apply totalLaps_checks in Hn. congruence.
    - split; [discriminate | intros Hx; contradiction]. }
  apply totalLaps_checks in E4.
  destruct (is_undefined (field req "idealTime") || is_null (field req "idealTime")
            || negb (String.eqb (typeof (field req "idealTime")) "number")
            || lt_zero (field req "idealTime")) eqn:E5; [|discriminate].
  injection H as <-. eexists. split; [reflexivity|]. split.
  - right; right. split; [reflexivity|]. split; [exact Hlines|]. split; [exact E4|].
    intros Hn.
    assert (Hnan : field req "idealTime" <> VNum NaN).
    { intros Hx. rewrite Hx in E5. discriminate. }
    apply (idealTime_checks _ Hnan) in Hn. congruence.
  - split; [discriminate | intros Hx; contradiction].
Qed.

End Messages.

(** ** The statements on the sample traffic *)

Lemma set_lines_responds_exactly_once_witness :
  In TimerFired [PublishDone TStart false; TimerFired; PublishDone TLap true]
  /\ length (sent (post_set_lines (RT := PlainText.runtime) true empty_world
                     sample_body
                     [PublishDone TStart false; TimerFired; PublishDone TLap true]))
     = 1%nat.
Proof.
  assert (Hin : In TimerFired
                  [PublishDone TStart false; TimerFired; PublishDone TLap true])
    by (right; left; reflexivity).
  split; [exact Hin|].
  exact (proj1 (proj2 (set_lines_responds_exactly_once (RT := PlainText.runtime)
                         true empty_world sample_body)) _ Hin).
Defined.

Lemma set_lines_timeout_reports_unknown_witness :
  validate sample_body = None
  /\ (length [(TStart, false); (TLap, true)] < totalTasks)%nat
  /\ sent (post_set_lines (RT := PlainText.runtime) true empty_world sample_body
             (ack_events [(TStart, false); (TLap, true)]
              ++ TimerFired :: [PublishDone TFinish false]))
     = [timeout_response ["Failed Lap line."]].
Proof.
  assert (Hv : validate sample_body = None) by (vm_compute; reflexivity).
  assert (Hlt : (length [(TStart, false); (TLap, true)] < totalTasks)%nat)
    by (unfold totalTasks; simpl; lia).
  split; [exact Hv|]. split; [exact Hlt|].
  exact (proj1 (set_lines_timeout_reports_unknown (RT := PlainText.runtime)
                  empty_world sample_body [(TStart, false); (TLap, true)]
                  [PublishDone TFinish false] Hv Hlt)).
Defined.

Lemma set_lines_reports_outcome_witness :
  validate sample_body = None
  /\ Permutation (map fst (map lap_fails all_tasks)) all_tasks
  /\ Exists (fun a => snd a = true) (map lap_fails all_tasks)
  /\ sent (post_set_lines (RT := PlainText.runtime) true empty_world sample_body
             (ack_events (map lap_fails all_tasks) ++ [TimerFired]))
     = [failure_response ["Failed Lap line."]].
Proof.
  assert (Hv : validate sample_body = None) by (vm_compute; reflexivity).
  assert (Hp : Permutation (map fst (map lap_fails all_tasks)) all_tasks)
    by reflexivity.
  assert (Hex : Exists (fun a => snd a = true) (map lap_fails all_tasks)).
  { apply Exists_cons_tl, Exists_cons_tl, Exists_cons_hd. reflexivity. }
  split; [exact Hv|]. split; [exact Hp|]. split; [exact Hex|].
  exact (proj1 (proj2 (set_lines_reports_outcome (RT := PlainText.runtime)
                         empty_world sample_body (map lap_fails all_tasks)
                         [TimerFired] Hv Hp) Hex)).
Defined.

Lemma set_lines_replay_idempotent_witness :
  validate sample_body = None
  /\ Permutation all_tasks all_tasks
  /\ let first :=
       post_set_lines (RT := PlainText.runtime) true empty_world sample_body
         (ack_events (acknowledged all_tasks) ++ [TimerFired]) in
     let second :=
       post_set_lines (RT := PlainText.runtime) true (final_world first) sample_body
         (ack_events (acknowledged all_tasks) ++ [TimerFired]) in
     sent first = [success_response]
     /\ sent second = [success_response]
     /\ final_world second = final_world first.
Proof.
  assert (Hv : validate sample_body = None) by (vm_compute; reflexivity).
  split; [exact Hv|]. split; [reflexivity|].
  destruct (set_lines_replay_idempotent (RT := PlainText.runtime) empty_world
              sample_body all_tasks all_tasks [TimerFired] [TimerFired] Hv
              (Permutation_refl _) (Permutation_refl _)) as (H1 & H2 & H3 & _).
  cbn zeta. auto.
Defined.

Lemma set_lines_lap_failure_witness :
  validate sample_body = None
  /\ Permutation all_tasks all_tasks
  /\ let run :=
       post_set_lines (RT := PlainText.runtime) true empty_world sample_body
         (ack_events (map lap_fails all_tasks) ++ [TimerFired]) in
     sent run = [failure_response ["Failed Lap line."]]
     /\ retained (final_world run) !! MQTT_TOPIC_CONFIG_TOTAL_LAPS = Some "3"
     /\ currentConfig (final_world run) !! MQTT_TOPIC_IDEAL_TIME = Some "58.5".
Proof.
  assert (Hv : validate sample_body = None) by (vm_compute; reflexivity).
  split; [exact Hv|]. split; [reflexivity|].
  destruct (set_lines_lap_failure (RT := PlainText.runtime) empty_world sample_body
              all_tasks [TimerFired] Hv (Permutation_refl _))
    as (Hs & _ & _ & _ & _ & Hkept).
  cbn zeta. split; [exact Hs|]. split.
  - exact (proj1 (Hkept TTotalLaps ltac:(discriminate))).
  - exact (proj2 (Hkept TIdealTime ltac:(discriminate))).
Defined.


Lemma get_config_numeric_defaults_witness :
  is_Some (read_lines (RT := PlainText.runtime) numeric_config)
  /\ status (get_config (RT := PlainText.runtime) numeric_config) = 200
  /\ answer_field (get_config (RT := PlainText.runtime) numeric_config) "totalLaps"
     = VNum (num_of_Z 12)
  /\ answer_field (get_config (RT := PlainText.runtime) numeric_config) "idealTime"
     = VNum (num_of_Z 60).
Proof.
  assert (Hl : is_Some (read_lines (RT := PlainText.runtime) numeric_config))
    by (eexists; vm_compute; reflexivity).
  split; [exact Hl|].
  destruct (proj1 (get_config_numeric_defaults (RT := PlainText.runtime)
                     numeric_config) Hl) as (Hs & Ht & Hi).
  split; [exact Hs|]. split.
  - rewrite Ht. vm_compute. reflexivity.
  - rewrite Hi. vm_compute. reflexivity.
Defined.

Lemma line_geometry_round_trip_witness :
  validate sample_body = None
  /\ In TStart line_tasks
  /\ json_faithful (RT := PlainText.runtime) start_gate
  /\ finite_line start_gate
  /\ read_line (RT := PlainText.runtime)
       (on_message MQTT_TOPIC_CONFIG_START
          (payload_of (RT := PlainText.runtime) sample_body TStart) initial_config)
       MQTT_TOPIC_CONFIG_START
     = Some start_gate.
Proof.
  assert (Hv : validate sample_body = None) by (vm_compute; reflexivity).
  assert (Hin : In TStart line_tasks) by (left; reflexivity).
  assert (Hj : json_faithful (RT := PlainText.runtime) start_gate).
  { split; [vm_compute; discriminate | vm_compute; reflexivity]. }
  assert (Hfin : finite_line start_gate)
    by (exists (248 # 5)%Q, (61 # 10)%Q, (49601 # 1000)%Q, (61 # 10)%Q; reflexivity).
  split; [exact Hv|]. split; [exact Hin|]. split; [exact Hj|]. split; [exact Hfin|].
  destruct (line_geometry_round_trip (RT := PlainText.runtime) sample_body TStart
              initial_config Hv Hin Hj) as (a & b & c & d & _ & _ & Hread & Hiff).
  refine (eq_trans Hread _). exact (f_equal Some (proj2 Hiff Hfin)).
Defined.

Lemma relay_ignores_incomplete_status_witness :
  JSON_parse (Runtime := PlainText.runtime) "oops" = None
  /\ relay_on_message (RT := PlainText.runtime) MQTT_TOPIC_GPS "oops" initial_relay
     = Some (initial_relay, [])
  /\ (exists payload,
        JSON_parse (Runtime := PlainText.runtime) "{}" = Some payload
        /\ forall fs, payload = VObj fs -> own_prop "current_lap" fs = None)
  /\ relay_on_message (RT := PlainText.runtime) MQTT_TOPIC_GPS "{}" initial_relay
     = Some (initial_relay, []).
Proof.
  assert (Hbad : JSON_parse (Runtime := PlainText.runtime) "oops" = None)
    by (vm_compute; reflexivity).
  assert (Hempty : JSON_parse (Runtime := PlainText.runtime) "{}" = Some (VObj []))
    by (vm_compute; reflexivity).
  assert (Hmiss : forall fs : list (string * value),
             VObj [] = VObj fs -> own_prop "current_lap" fs = None).
  { intros fs Hfs. injection Hfs as <-. reflexivity. }
  split; [exact Hbad|]. split; [|split].
  - apply (proj1 (relay_ignores_incomplete_status (RT := PlainText.runtime))).
    left. exact Hbad.
  - exists (VObj []). split; [exact Hempty | exact Hmiss].
  - apply (proj1 (relay_ignores_incomplete_status (RT := PlainText.runtime))).
    right. exists (VObj []), "current_lap".
    split; [exact Hempty|]. split; [left; reflexivity | exact Hmiss].
Defined.

(** ** The further facts on the sample traffic *)

Lemma set_lines_waits_for_every_callback_witness :
  validate sample_body = None
  /\ (sent (post_set_lines (RT := PlainText.runtime) true empty_world sample_body
              (ack_events [(TStart, false); (TLap, true)])) = []
      <-> (length [(TStart, false); (TLap, true)] < totalTasks)%nat).
Proof.
  assert (Hv : validate sample_body = None) by (vm_compute; reflexivity).
  split; [exact Hv|].
  exact (set_lines_waits_for_every_callback (RT := PlainText.runtime) empty_world
           sample_body [(TStart, false); (TLap, true)] Hv).
Defined.

Lemma get_config_returns_acknowledged_request_witness :
  validate sample_body = None
  /\ Permutation all_tasks all_tasks
  /\ (forall t, In t line_tasks ->
        round_trips (RT := PlainText.runtime)
          (line_object (field sample_body (line_field t))))
  /\ 3 < 10 ^ 21
  /\ Finite (117 # 2) <> NaN
  /\ prints_back (RT := PlainText.runtime) (Finite (117 # 2))
  /\ let run :=
       post_set_lines (RT := PlainText.runtime) true empty_world sample_body
         (ack_events (acknowledged all_tasks) ++ [TimerFired]) in
     let answer :=
       get_config (RT := PlainText.runtime) (currentConfig (final_world run)) in
     status answer = 200
     /\ answer_field answer "lap" = lap_gate
     /\ answer_field answer "totalLaps" = VNum (num_of_Z 3)
     /\ answer_field answer "idealTime" = VNum (Finite (117 # 2)).
Proof.
  assert (Hv : validate sample_body = None) by (vm_compute; reflexivity).
  assert (Hrt : forall t, In t line_tasks ->
            round_trips (RT := PlainText.runtime)
              (line_object (field sample_body (line_field t)))).
  { intros t [<- | [<- | [<- | []]]];
      (split; [vm_compute; discriminate | vm_compute; reflexivity]). }
  assert (Hz : 3 < 10 ^ 21) by (vm_compute; reflexivity).
  assert (Hnan : Finite (117 # 2) <> NaN) by discriminate.
  assert (Hback : prints_back (RT := PlainText.runtime) (Finite (117 # 2)))
    by (vm_compute; reflexivity).
  split; [exact Hv|]. split; [reflexivity|]. split; [exact Hrt|].
  split; [exact Hz|]. split; [exact Hnan|]. split; [exact Hback|].
  destruct (get_config_returns_acknowledged_request (RT := PlainText.runtime)
              empty_world sample_body all_tasks [TimerFired] 3 (Finite (117 # 2))
              Hv (Permutation_refl _) Hrt eq_refl Hz eq_refl Hnan Hback)
    as [Hst Hall].
  cbn zeta. split; [exact Hst|]. split; [|split].
  - apply (Hall "lap"). cbn. auto.
  - apply (Hall "totalLaps"). cbn. auto.
  - apply (Hall "idealTime"). cbn. auto 10.
Defined.

Lemma answers_depend_on_own_events_witness :
  events_of 1 timer_first = events_of 1 timer_between
  /\ answers_to 1 (serve_all timer_first two_requests)
     = answers_to 1 (serve_all timer_between two_requests).
Proof.
  assert (He : events_of 1 timer_first = events_of 1 timer_between) by reflexivity.
  split; [exact He|].
  exact (proj1 (answers_depend_on_own_events 1 timer_first timer_between
                  two_requests He)).
Defined.

Lemma overlapping_updates_both_succeed_witness :
  Permutation all_tasks all_tasks
  /\ Permutation (rev all_tasks) all_tasks
  /\ events_of 1 overlapping_trace = ack_events (acknowledged all_tasks) ++ []
  /\ events_of 2 overlapping_trace
     = ack_events (acknowledged (rev all_tasks)) ++ [TimerFired]
  /\ answers_to 1 (serve_all overlapping_trace two_requests) = [success_response]
  /\ answers_to 2 (serve_all overlapping_trace two_requests) = [success_response].
Proof.
  assert (Hp : Permutation (rev all_tasks) all_tasks)
    by (symmetry; apply Permutation_rev).
  assert (H1 : events_of 1 overlapping_trace
               = ack_events (acknowledged all_tasks) ++ []) by reflexivity.
  assert (H2 : events_of 2 overlapping_trace
               = ack_events (acknowledged (rev all_tasks)) ++ [TimerFired])
    by reflexivity.
  split; [reflexivity|]. split; [exact Hp|]. split; [exact H1|]. split; [exact H2|].
  exact (overlapping_updates_both_succeed overlapping_trace all_tasks (rev all_tasks)
           [] [TimerFired] (Permutation_refl _) Hp H1 H2).
Defined.

Lemma relay_merges_status_witness :
  JSON_parse (Runtime := PlainText.runtime) (PlainText.print sample_status)
  = Some sample_status
  /\ (forall k, In k requiredKeys -> has_key k (own_properties sample_status) = true)
  /\ exists st',
       relay_on_message (RT := PlainText.runtime) MQTT_TOPIC_GPS
         (PlainText.print sample_status) initial_relay
       = Some (st', [race_update st'])
       /\ own_prop "current_lap" (raceData st') = Some (VNum (num_of_Z 2))
       /\ own_prop "source" (raceData st') = Some (VStr "pi").
Proof.
  assert (Hp : JSON_parse (Runtime := PlainText.runtime) (PlainText.print sample_status)
               = Some sample_status) by (vm_compute; reflexivity).
  assert (Hk : forall k, In k requiredKeys ->
                 has_key k (own_properties sample_status) = true).
  { intros k [<- | [<- | [<- | [<- | [<- | []]]]]]; reflexivity. }
  split; [exact Hp|]. split; [exact Hk|].
  destruct (relay_merges_status (RT := PlainText.runtime)
              (PlainText.print sample_status) (own_properties sample_status)
              initial_relay Hp Hk) as (st' & Hr & Hm & _).
  exists st'. split; [exact Hr|]. split.
  - rewrite (Hm "current_lap"). reflexivity.
  - rewrite (Hm "source"). reflexivity.
Defined.

Lemma relay_takes_speed_only_witness :
  JSON_parse (Runtime := PlainText.runtime) (PlainText.print sample_speed)
  = Some sample_speed
  /\ has_key "speed_kmh" (own_properties sample_speed) = true
  /\ exists st',
       relay_on_message (RT := PlainText.runtime) MQTT_TOPIC_SPEED
         (PlainText.print sample_speed) initial_relay
       = Some (st', [speed_update st'])
       /\ own_prop "speed_kmh" (speedData st') = Some (VNum (Finite (63 # 2)))
       /\ raceData st' = raceData initial_relay.
Proof.
  assert (Hp : JSON_parse (Runtime := PlainText.runtime) (PlainText.print sample_speed)
               = Some sample_speed) by (vm_compute; reflexivity).
  assert (Hk : has_key "speed_kmh" (own_properties sample_speed) = true)
    by reflexivity.
  split; [exact Hp|]. split; [exact Hk|].
  destruct (relay_takes_speed_only (RT := PlainText.runtime)
              (PlainText.print sample_speed) (own_properties sample_speed)
              initial_relay Hp Hk) as (st' & Hr & Hs & _ & Hrd & _).
  exists st'. split; [exact Hr|]. split; [|exact Hrd].
  rewrite Hs. reflexivity.
Defined.


Lemma validate_reports_first_failure_witness :
  validate negative_laps_body = Some (message_only 400 total_laps_text)
  /\ status (message_only 400 total_laps_text) = 400
  /\ lines_well_formed negative_laps_body.
Proof.
  assert (Hv : validate negative_laps_body = Some (message_only 400 total_laps_text))
    by (vm_compute; reflexivity).
  split; [exact Hv|].
  destruct (validate_reports_first_failure negative_laps_body _ Hv)
    as (Hst & text & Hb & Hcases & _).
  split; [exact Hst|].
  injection Hb as <-.
  destruct Hcases as [[Hin _] | [(_ & Hl & _) | (Ht & _)]].
  - destruct Hin as [Hx | [Hx | [Hx | []]]]; discriminate Hx.
  - exact Hl.
  - discriminate Ht.
Defined.

Lemma formatTimeJS_whole_seconds_witness :
  0 <= 125 < 2 ^ 53
  /\ formatTimeJS (RT := PlainText.runtime) (VNum (num_of_Z 125)) = "02:05".
Proof.
  assert (Hz : 0 <= 125 < 2 ^ 53)
    by (split; [vm_compute; discriminate | vm_compute; reflexivity]).
  split; [exact Hz|].
  rewrite (formatTimeJS_whole_seconds (RT := PlainText.runtime) 125 Hz).
  vm_compute. reflexivity.
Defined.
